(** * Shallow embedding of the baasbot_v2 strategy evaluation engine

    Sources embedded:
    - [strategy_base.py]: [StrategyBase.calculate_positions], the return,
      equity and drawdown part of [StrategyBase.backtest];
    - [momentum_strategy.py], [macd_strategy.py],
      [mean_reversion_strategy.py], [bollinger_breakout_strategy.py],
      [trend_following_strategy.py]: [generate_signals];
    - [transaction_costs.py]: [CostModel] and [TransactionCostCalculator];
    - [strategy_comparison.py]: [StrategyComparison.run_comparison].

    Floats are modelled by exact rationals [Q]. A pandas cell is an
    [option Q], [None] standing for NaN. *)

From Stdlib Require Import String Ascii List ZArith QArith Qminmax Qround Lqa Lia Bool.
From Stdlib Require Import Permutation Sorted.
Import ListNotations.

Open Scope Q_scope.

(** ** Python exceptions and fallible results *)

(** The exception classes the embedded code can raise. The last two are
    the classes named by the specification; no module of the repository
    defines or raises them. *)
Inductive exn : Type :=
| KeyError (key : string)
| ZeroDivisionError
| IndexError
| MissingIndicatorError (column : string)
| InvalidQuantityError.

Inductive result (A : Type) : Type :=
| Ok (a : A)
| Err (e : exn).
Arguments Ok {A} a.
Arguments Err {A} e.

Definition bind {A B : Type} (r : result A) (f : A -> result B) : result B :=
  match r with
  | Ok a => f a
  | Err e => Err e
  end.

Definition fmap {A B : Type} (f : A -> B) (r : result A) : result B :=
  bind r (fun a => Ok (f a)).

Notation "x <- r ;; k" := (bind r (fun x => k))
  (at level 61, r at next level, right associativity).

(** ** pandas cells *)

Definition cell := option Q.

(** Comparisons of a float with NaN are [False]. *)
Definition cgt (a b : cell) : bool :=
  match a, b with Some x, Some y => negb (Qle_bool x y) | _, _ => false end.
Definition clt (a b : cell) : bool := cgt b a.
Definition cle (a b : cell) : bool :=
  match a, b with Some x, Some y => Qle_bool x y | _, _ => false end.
Definition cge (a b : cell) : bool := cle b a.

(** Element-wise arithmetic propagates NaN. A quotient by zero, which
    pandas turns into an infinity or NaN, is a non-finite cell: [None]. *)
Definition cadd (a b : cell) : cell :=
  match a, b with Some x, Some y => Some (x + y) | _, _ => None end.
Definition csub (a b : cell) : cell :=
  match a, b with Some x, Some y => Some (x - y) | _, _ => None end.
Definition cmul (a b : cell) : cell :=
  match a, b with Some x, Some y => Some (x * y) | _, _ => None end.
Definition cdiv (a b : cell) : cell :=
  match a, b with
  | Some x, Some y => if Qeq_bool y 0 then None else Some (x / y)
  | _, _ => None
  end.

(** ** Bar tables *)

(** A DataFrame as its list of named columns; every column has one cell
    per bar. *)
Record frame : Type := Frame { columns : list (string * list cell) }.

Definition has_col (t : frame) (c : string) : bool :=
  existsb (fun kv => String.eqb (fst kv) c) (columns t).

(** [df[c]]: a missing column raises [KeyError c]. *)
Definition get_col (t : frame) (c : string) : result (list cell) :=
  match find (fun kv => String.eqb (fst kv) c) (columns t) with
  | Some kv => Ok (snd kv)
  | None => Err (KeyError c)
  end.

(** [s.shift(1)]. *)
Definition shift1 (xs : list cell) : list cell :=
  firstn (length xs) (None :: xs).

(** An element-wise binary operation on two aligned series. *)
Fixpoint map2 {A B C : Type} (f : A -> B -> C) (xs : list A) (ys : list B)
  : list C :=
  match xs, ys with
  | x :: xs', y :: ys' => f x y :: map2 f xs' ys'
  | _, _ => []
  end.

(** One value per bar, computed from the bar's index. *)
Definition per_bar {A : Type} (n : nat) (f : nat -> A) : list A :=
  map f (seq 0 n).

(** Python's [str] of a non-negative integer, for f-string column names. *)
Fixpoint uint_to_string (d : Decimal.uint) : string :=
  match d with
  | Decimal.Nil => ""
  | Decimal.D0 r => String "0"%char (uint_to_string r)
  | Decimal.D1 r => String "1"%char (uint_to_string r)
  | Decimal.D2 r => String "2"%char (uint_to_string r)
  | Decimal.D3 r => String "3"%char (uint_to_string r)
  | Decimal.D4 r => String "4"%char (uint_to_string r)
  | Decimal.D5 r => String "5"%char (uint_to_string r)
  | Decimal.D6 r => String "6"%char (uint_to_string r)
  | Decimal.D7 r => String "7"%char (uint_to_string r)
  | Decimal.D8 r => String "8"%char (uint_to_string r)
  | Decimal.D9 r => String "9"%char (uint_to_string r)
  end.

Definition py_str (n : nat) : string := uint_to_string (Nat.to_uint n).

(** ** Strategies and [generate_signals] *)

(** [MomentumStrategy]: [rsi_period] and [threshold] from its config
    section, defaults 14 and 50. *)
Record momentum_cfg : Type := MomentumCfg { rsi_period : nat; threshold : Q }.

Definition momentum_default : momentum_cfg := MomentumCfg 14 50.

Inductive strategy : Type :=
| MeanReversion (rsi_oversold rsi_overbought : Q)
| Momentum (m : momentum_cfg)
| MACD
| BollingerBreakout
| TrendFollowing (fast_period slow_period : nat).

(** [rsi_col] of [MomentumStrategy.generate_signals], with its fallback. *)
Definition momentum_rsi_col (m : momentum_cfg) (t : frame) : string :=
  let rsi_col := ("rsi_" ++ py_str (rsi_period m))%string in
  if has_col t rsi_col then rsi_col else "rsi_14"%string.

(** The [signal] of one bar: 0, then 1 where the buy mask holds, then -1
    where the sell mask holds (the second [.loc] assignment wins). *)
Definition assign_signal (buy sell : bool) : Z :=
  let s := if buy then 1%Z else 0%Z in
  if sell then (-1)%Z else s.

Definition momentum_signals (th : Q) (rsi : list cell) : list Z :=
  let rsi_prev := shift1 rsi in
  per_bar (length rsi) (fun i =>
    let r := nth i rsi None in
    let p := nth i rsi_prev None in
    assign_signal (cgt r (Some th) && cle p (Some th))
                  (clt r (Some th) && cge p (Some th))).

Definition macd_signals (macd macd_signal : list cell) : list Z :=
  let macd_prev := shift1 macd in
  let signal_prev := shift1 macd_signal in
  per_bar (length macd) (fun i =>
    let m := nth i macd None in
    let s := nth i macd_signal None in
    let mp := nth i macd_prev None in
    let sp := nth i signal_prev None in
    assign_signal (cgt m s && cle mp sp) (clt m s && cge mp sp)).

(** Level-triggered rules: a buy mask and a sell mask on the same bar. *)
Definition level_signals (buy sell : nat -> bool) (n : nat) : list Z :=
  per_bar n (fun i => assign_signal (buy i) (sell i)).

Definition generate_signals (s : strategy) (t : frame) : result (list Z) :=
  match s with
  | MeanReversion lo hi =>
      rsi <- get_col t "rsi_14";;
      Ok (level_signals (fun i => clt (nth i rsi None) (Some lo))
                        (fun i => cgt (nth i rsi None) (Some hi)) (length rsi))
  | Momentum m =>
      rsi <- get_col t (momentum_rsi_col m t);;
      Ok (momentum_signals (threshold m) rsi)
  | MACD =>
      macd <- get_col t "macd";;
      macd_signal <- get_col t "macd_signal";;
      Ok (macd_signals macd macd_signal)
  | BollingerBreakout =>
      close <- get_col t "close";;
      bb_upper <- get_col t "bb_upper";;
      bb_lower <- get_col t "bb_lower";;
      Ok (level_signals (fun i => cgt (nth i close None) (nth i bb_upper None))
                        (fun i => clt (nth i close None) (nth i bb_lower None))
                        (length close))
  | TrendFollowing fast slow =>
      sma_fast <- get_col t ("sma_" ++ py_str fast)%string;;
      sma_slow <- get_col t ("sma_" ++ py_str slow)%string;;
      Ok (level_signals (fun i => cgt (nth i sma_fast None) (nth i sma_slow None))
                        (fun i => clt (nth i sma_fast None) (nth i sma_slow None))
                        (length sma_fast))
  end.

(** ** [StrategyBase.calculate_positions] *)

(** [signal.replace(0, np.nan)]. *)
Definition replace0 (s : list Z) : list (option Z) :=
  map (fun z => if Z.eqb z 0 then None else Some z) s.

(** [.ffill()]: carry the last non-missing value forward. *)
Fixpoint ffill_from {A : Type} (last : option A) (xs : list (option A))
  : list (option A) :=
  match xs with
  | [] => []
  | None :: r => last :: ffill_from last r
  | Some v :: r => Some v :: ffill_from (Some v) r
  end.

Definition ffill {A : Type} (xs : list (option A)) : list (option A) :=
  ffill_from None xs.

(** [.fillna(0)]. *)
Definition fillna0 (xs : list (option Z)) : list Z :=
  map (fun o => match o with Some v => v | None => 0%Z end) xs.

Definition calculate_positions (signal : list Z) : list Z :=
  fillna0 (ffill (replace0 signal)).

(** ** [StrategyBase.backtest]: returns, equity, drawdown *)

(** [close.pct_change()], the [returns] column added by
    [TechnicalIndicators.calculate_returns]. *)
Definition pct_change (close : list cell) : list cell :=
  map2 (fun c p => csub (cdiv c p) (Some 1)) close (shift1 close).

Definition to_cell (z : Z) : cell := Some (inject_Z z).

(** [position.shift(1) * returns]. *)
Definition strategy_returns (position : list Z) (returns : list cell)
  : list cell :=
  map2 cmul (shift1 (map to_cell position)) returns.

(** [Series.cumprod()] with its default [skipna=True]: a NaN stays NaN in
    the output and does not reset the running product. *)
Fixpoint cumprod_from (acc : Q) (xs : list cell) : list cell :=
  match xs with
  | [] => []
  | None :: r => None :: cumprod_from acc r
  | Some v :: r => Some (acc * v) :: cumprod_from (acc * v) r
  end.

Definition cumprod (xs : list cell) : list cell := cumprod_from 1 xs.

(** [initial_capital * (1 + strategy_returns).cumprod()]. *)
Definition equity_curve (initial_capital : Q) (sr : list cell) : list cell :=
  map (cmul (Some initial_capital)) (cumprod (map (cadd (Some 1)) sr)).

(** The columns [backtest] builds from the prepared table's [returns]
    column and the strategy's [signal] column: positions, strategy
    returns and equity. *)
Definition backtest_columns (initial_capital : Q) (signal : list Z)
    (returns : list cell) : list Z * list cell * list cell :=
  let position := calculate_positions signal in
  let sr := strategy_returns position returns in
  (position, sr, equity_curve initial_capital sr).

(** [equity.expanding().max()]: the running maximum of the non-missing
    values so far, NaN while there is none. *)
Fixpoint expanding_max_from (m : option Q) (xs : list cell) : list cell :=
  match xs with
  | [] => []
  | x :: r =>
      let m' := match x, m with
                | Some v, Some w => Some (Qmax w v)
                | Some v, None => Some v
                | None, _ => m
                end in
      m' :: expanding_max_from m' r
  end.

Definition expanding_max (xs : list cell) : list cell :=
  expanding_max_from None xs.

(** [(equity - peak) / peak] at one bar. *)
Definition drawdown_at (e p : cell) : cell := cdiv (csub e p) p.

Definition drawdown (equity : list cell) : list cell :=
  map2 drawdown_at equity (expanding_max equity).

(** [Series.min()] skipping NaN; NaN when every value is NaN. *)
Fixpoint series_min (xs : list cell) : cell :=
  match xs with
  | [] => None
  | None :: r => series_min r
  | Some v :: r =>
      match series_min r with
      | None => Some v
      | Some m => Some (Qmin v m)
      end
  end.

Definition max_drawdown (equity : list cell) : cell :=
  series_min (drawdown equity).

(** The non-missing values of a series, in order. *)
Fixpoint defined (xs : list cell) : list Q :=
  match xs with
  | [] => []
  | None :: r => defined r
  | Some v :: r => v :: defined r
  end.

(** Monotonically non-decreasing, starting above an optional bound. *)
Fixpoint nondecreasing_from (m : option Q) (l : list Q) : Prop :=
  match l with
  | [] => True
  | e :: r =>
      match m with Some w => w <= e | None => True end
      /\ nondecreasing_from (Some e) r
  end.

Definition nondecreasing (l : list Q) : Prop := nondecreasing_from None l.

(** ** [transaction_costs.py] *)

Record CostModel : Type := MkCostModel {
  commission_pct : Q;
  commission_min : Q;
  spread_pct : Q;
  slippage_pct : Q;
  market_impact : Q
}.

(** The dataclass defaults. *)
Definition CostModel_default : CostModel :=
  MkCostModel 0 0 0.01 0.05 0.

Record cost_breakdown : Type := MkCostBreakdown {
  gross_value : Q;
  commission : Q;
  spread_cost : Q;
  slippage_cost : Q;
  total_cost : Q;
  effective_price : Q
}.

(** The builtin [max(a, b)]: [b] replaces [a] only when [b > a]. *)
Definition py_max (a b : Q) : Q := if negb (Qle_bool b a) then b else a.

(** Python float division: a zero divisor raises [ZeroDivisionError]. *)
Definition py_div (a b : Q) : result Q :=
  if Qeq_bool b 0 then Err ZeroDivisionError else Ok (a / b).

Definition calculate_entry_cost (model : CostModel) (price quantity : Q)
    (side : string) : result cost_breakdown :=
  let gross_value := price * quantity in
  let commission := py_max (gross_value * commission_pct model / 100)
                           (commission_min model) in
  let spread_cost := gross_value * spread_pct model / 100 in
  let slippage_cost := gross_value * slippage_pct model / 100 in
  let total_cost := commission + spread_cost + slippage_cost in
  effective_price <-
    (if String.eqb side "buy"
     then py_div (gross_value + total_cost) quantity
     else py_div (gross_value - total_cost) quantity);;
  Ok (MkCostBreakdown gross_value commission spread_cost slippage_cost
                      total_cost effective_price).

Definition calculate_roundtrip_cost (model : CostModel)
    (entry_price exit_price quantity : Q) : result Q :=
  entry <- calculate_entry_cost model entry_price quantity "buy";;
  exit <- calculate_entry_cost model exit_price quantity "sell";;
  Ok (total_cost entry + total_cost exit).

(** ** [StrategyComparison.run_comparison] *)

(** The metrics [backtest] returns (the equity curve left out). *)
Record metrics : Type := MkMetrics {
  total_return : Q;
  sharpe_ratio : Q;
  max_dd : Q;
  win_rate : Q;
  total_trades : nat
}.

(** One dict of [comparison_data]. *)
Record row : Type := MkRow { row_strategy : string; row_metrics : metrics }.

Definition comparison_columns : list string :=
  ["Strategy"; "Total Return"; "Sharpe Ratio"; "Max Drawdown"; "Win Rate";
   "Total Trades"]%string.

Record table : Type := MkTable { tcolumns : list string; trows : list row }.

(** [pd.DataFrame(list_of_dicts)]: an empty list gives a frame with no
    columns at all. *)
Definition DataFrame (rows : list row) : table :=
  MkTable (match rows with [] => [] | _ => comparison_columns end) rows.

(** Insertion sort, descending by [key]. pandas' default quicksort does
    not fix the order of equal keys; this is one of its admissible
    orders. *)
Fixpoint insert_desc (key : row -> Q) (r : row) (l : list row) : list row :=
  match l with
  | [] => [r]
  | x :: l' => if Qle_bool (key x) (key r) then r :: x :: l'
               else x :: insert_desc key r l'
  end.

Fixpoint sort_desc (key : row -> Q) (l : list row) : list row :=
  match l with
  | [] => []
  | r :: l' => insert_desc key r (sort_desc key l')
  end.

(** [df.sort_values(col, ascending=False)]: a missing column raises
    [KeyError col]. *)
Definition sort_values_desc (t : table) (col : string) (key : row -> Q)
  : result table :=
  if existsb (String.eqb col) (tcolumns t)
  then Ok (MkTable (tcolumns t) (sort_desc key (trows t)))
  else Err (KeyError col).

(** The loop body: a strategy is seen through its name and what
    [strategy.backtest(data, initial_capital)] returns or raises; an
    exception is caught and the strategy skipped. *)
Fixpoint collect_rows (outcomes : list (string * result metrics)) : list row :=
  match outcomes with
  | [] => []
  | (name, Ok res) :: r => MkRow name res :: collect_rows r
  | (_, Err _) :: r => collect_rows r
  end.

Definition run_comparison (outcomes : list (string * result metrics))
  : result table :=
  sort_values_desc (DataFrame (collect_rows outcomes)) "Sharpe Ratio"
    (fun r => sharpe_ratio (row_metrics r)).

(** ** Vocabulary of the claims *)

(** The column [df[c]] when present, an empty column otherwise. *)
Definition column_or_empty (t : frame) (c : string) : list cell :=
  match get_col t c with Ok v => v | Err _ => [] end.

(** Per-bar conditions of the two edge-triggered rules. *)
Definition momentum_buy_condition (m : momentum_cfg) (t : frame) (i : nat) : bool :=
  cgt (nth i (column_or_empty t (momentum_rsi_col m t)) None) (Some (threshold m)).
Definition momentum_sell_condition (m : momentum_cfg) (t : frame) (i : nat) : bool :=
  clt (nth i (column_or_empty t (momentum_rsi_col m t)) None) (Some (threshold m)).
Definition macd_buy_condition (t : frame) (i : nat) : bool :=
  cgt (nth i (column_or_empty t "macd") None)
      (nth i (column_or_empty t "macd_signal") None).
Definition macd_sell_condition (t : frame) (i : nat) : bool :=
  clt (nth i (column_or_empty t "macd") None)
      (nth i (column_or_empty t "macd_signal") None).

(** Edge triggering: nothing at bar 0, and a Buy (Sell) inside a stretch
    of bars all meeting the buy (sell) condition lies at its first bar. *)
Definition edge_triggered (buy sell : nat -> bool) (signal : list Z) : Prop :=
  nth 0%nat signal 0%Z = 0%Z /\
  (forall i j k, (forall l, (i <= l <= j)%nat -> buy l = true) ->
     (i <= k <= j)%nat -> nth k signal 0%Z = 1%Z -> k = i) /\
  (forall i j k, (forall l, (i <= l <= j)%nat -> sell l = true) ->
     (i <= k <= j)%nat -> nth k signal 0%Z = (-1)%Z -> k = i).

(** The columns each [generate_signals] reads, in the order it reads
    them. *)
Definition required_columns (s : strategy) (t : frame) : list string :=
  match s with
  | MeanReversion _ _ => ["rsi_14"%string]
  | Momentum m => [momentum_rsi_col m t]
  | MACD => ["macd"; "macd_signal"]%string
  | BollingerBreakout => ["close"; "bb_upper"; "bb_lower"]%string
  | TrendFollowing fast slow =>
      [("sma_" ++ py_str fast)%string; ("sma_" ++ py_str slow)%string]
  end.

Definition is_momentum (s : strategy) : bool :=
  match s with Momentum _ => true | _ => false end.

(** Positivity of every non-missing value of a series. *)
Definition positive_cells (xs : list cell) : Prop :=
  forall v, In (Some v) xs -> 0 < v.

Definition positive_peak (m : option Q) : Prop :=
  match m with Some w => 0 < w | None => True end.

(** The drawdowns of a series whose running maximum starts at [m]. *)
Definition drawdown_from (m : option Q) (xs : list cell) : list cell :=
  map2 drawdown_at xs (expanding_max_from m xs).

(** ** [StrategyBase.backtest]: the performance metrics *)

(** [x != y] on floats: NaN compares unequal to everything. *)
Definition cne (a b : cell) : bool :=
  match a, b with Some x, Some y => negb (Qeq_bool x y) | _, _ => true end.

(** [(mask).sum()] of a boolean Series. *)
Definition count_true (bs : list bool) : nat := length (filter (fun b => b) bs).

(** [(strategy_returns > 0).sum()]. *)
Definition winning_trades (sr : list cell) : nat :=
  count_true (map (fun c => cgt c (Some 0)) sr).

(** [(strategy_returns != 0).sum()]. *)
Definition total_trades_of (sr : list cell) : nat :=
  count_true (map (fun c => cne c (Some 0)) sr).

Definition win_rate_of (sr : list cell) : Q :=
  let t := total_trades_of sr in
  if (0 <? t)%nat
  then inject_Z (Z.of_nat (winning_trades sr)) / inject_Z (Z.of_nat t)
  else 0.

Definition qsum (l : list Q) : Q := fold_right Qplus 0 l.

(** [Series.mean()] of the non-missing values. *)
Definition qmean (l : list Q) : Q := qsum l / inject_Z (Z.of_nat (length l)).

(** [Series.std()] squared, with pandas' default [ddof=1]. *)
Definition qvariance (l : list Q) : Q :=
  qsum (map (fun x => (x - qmean l) * (x - qmean l)) l)
  / inject_Z (Z.of_nat (length l) - 1).

(** [returns.std() > 0]: the standard deviation of fewer than two values is
    NaN, and [NaN > 0] is [False]; otherwise it is positive exactly when
    the variance is. *)
Definition std_positive (l : list Q) : bool :=
  match l with
  | [] | [_] => false
  | _ => negb (Qle_bool (qvariance l) 0)
  end.

(** The value of [sharpe]: [0], or [sqrt(252) * mean / std] given by the
    mean and the squared standard deviation of the non-missing returns. *)
Inductive sharpe_value : Type :=
| SharpeZero
| SharpeRatio (mean std_squared : Q).

Definition sharpe_of (sr : list cell) : sharpe_value :=
  let returns := defined sr in
  if std_positive returns then SharpeRatio (qmean returns) (qvariance returns)
  else SharpeZero.

(** [(equity.iloc[-1] / initial_capital) - 1]; [iloc[-1]] of an empty
    Series raises [IndexError]. *)
Definition total_return_of (initial_capital : Q) (equity : list cell)
  : result cell :=
  match rev equity with
  | [] => Err IndexError
  | e :: _ => Ok (csub (cdiv e (Some initial_capital)) (Some 1))
  end.

(** The metrics of [backtest] from the prepared table: signals, the
    [returns] column, positions, equity, then the five statistics. *)
Record backtest_result : Type := MkBacktestResult {
  bt_total_return : cell;
  bt_sharpe_ratio : sharpe_value;
  bt_max_drawdown : cell;
  bt_win_rate : Q;
  bt_total_trades : nat;
  bt_equity_curve : list cell
}.

Definition backtest_prepared (s : strategy) (prepared : frame)
    (initial_capital : Q) : result backtest_result :=
  signal <- generate_signals s prepared;;
  returns <- get_col prepared "returns";;
  let '(_, sr, equity) := backtest_columns initial_capital signal returns in
  total_return <- total_return_of initial_capital equity;;
  Ok (MkBacktestResult total_return (sharpe_of sr) (max_drawdown equity)
        (win_rate_of sr) (total_trades_of sr) equity).


(** ** [config/settings.py]: [Settings.get] *)

(** A value loaded by [yaml.safe_load]. *)
#[warnings="-register-all"]
Inductive yaml : Type :=
| YNull
| YBool (b : bool)
| YNum (q : Q)
| YStr (s : string)
| YList (l : list yaml)
| YDict (kvs : list (string * yaml)).

(** [path.split('.')]. *)
Fixpoint split_dot (s : string) : list string :=
  match s with
  | EmptyString => [EmptyString]
  | String c r =>
      let parts := split_dot r in
      if Ascii.eqb c "."%char then EmptyString :: parts
      else match parts with
           | p :: ps => String c p :: ps
           | [] => [String c EmptyString]
           end
  end.

(** [d.get(key)]: [None] when the key is absent. *)
Fixpoint dict_get (kvs : list (string * yaml)) (k : string) : yaml :=
  match kvs with
  | [] => YNull
  | (k', v) :: r => if String.eqb k' k then v else dict_get r k
  end.

(** The loop of [Settings.get] over the keys. *)
Fixpoint get_keys (value : yaml) (keys : list string) (default : yaml) : yaml :=
  match keys with
  | [] => value
  | k :: ks =>
      match value with
      | YDict kvs =>
          match dict_get kvs k with
          | YNull => default
          | v => get_keys v ks default
          end
      | _ => default
      end
  end.

Definition settings_get (config : yaml) (path : string) (default : yaml) : yaml :=
  get_keys config (split_dot path) default.

(** ** [data_manager.py] *)

(** [int(x)] of a float: truncation toward zero. *)
Definition py_int (q : Q) : Z :=
  if Qle_bool 0 q then Qfloor q else (- Qfloor (- q))%Z.

(** A Python slice bound against a sequence of length [n]: negative bounds
    count from the end, and both are clamped to [0..n]. *)
Definition py_index (n : nat) (i : Z) : nat :=
  if (i <? 0)%Z then Z.to_nat (Z.of_nat n + i) else Nat.min (Z.to_nat i) n.

(** [data.iloc[a:b]]. *)
Definition iloc_slice {A : Type} (l : list A) (a b : option Z) : list A :=
  let n := length l in
  let s := match a with None => 0%nat | Some i => py_index n i end in
  let e := match b with None => n | Some j => py_index n j end in
  firstn (e - s) (skipn s l).

Definition split_train_test {A : Type} (data : list A)
    (train_pct validation_pct : Q) : list A * list A * list A :=
  let n := inject_Z (Z.of_nat (length data)) in
  let train_end := py_int (n * train_pct) in
  let val_end := py_int (n * (train_pct + validation_pct)) in
  (iloc_slice data None (Some train_end),
   iloc_slice data (Some train_end) (Some val_end),
   iloc_slice data (Some val_end) None).

(** The regime schedule of [_generate_realistic_synthetic_data], given the
    four draws of [np.random.choice]. *)
Definition regime_length (n : nat) : nat := if (4 <? n)%nat then n / 4 else n.

(** [while len(regimes) < n: regimes.append(regimes[-1])]: the last
    element is repeated up to length [n]; [regimes[-1]] of an empty list
    raises [IndexError]. *)
Definition pad_regimes (n : nat) (regimes : list string) : result (list string) :=
  if (length regimes <? n)%nat then
    match rev regimes with
    | [] => Err IndexError
    | x :: _ => Ok (regimes ++ repeat x (n - length regimes))
    end
  else Ok regimes.

Definition synthetic_regimes (n : nat) (draws : list string) : result (list string) :=
  let rl := regime_length n in
  padded <- pad_regimes n (concat (map (fun r => repeat r rl) draws));;
  Ok (firstn n padded).

(** ** [live_paper_trader.py]: one trading cycle *)

(** [get_current_position]: the fields it reads. *)
Record position : Type := MkPosition {
  pos_qty : Z;
  avg_entry : Q;
  market_value : Q;
  unrealized_pl : Q
}.

Inductive order_side : Type := SideBuy | SideSell.

(** A [place_order] call. *)
Record order : Type := MkOrder {
  o_symbol : string;
  o_qty : Z;
  o_side : order_side
}.

(** What one symbol brings to a cycle: the [signal] and [close] columns of
    its prepared frame ([None] when fetching, preparing or generating
    signals raised) and the result of [get_current_position]. *)
Record symbol_input : Type := MkSymbolInput {
  si_symbol : string;
  si_columns : option (list Z * list cell);
  si_position : option position
}.

Definition last_opt {A : Type} (l : list A) : option A :=
  match rev l with [] => None | x :: _ => Some x end.

(** The body of the [try] for one symbol: [Some orders] when it runs to
    the end, [None] when it raises. [iloc[-1]] of an empty column raises;
    [int(cash * 0.2 / price)] raises for a NaN or zero price (NaN or
    infinity). *)
Definition symbol_step (cash : Q) (si : symbol_input) : option (list order) :=
  match si_columns si with
  | None => None
  | Some (signal, close) =>
      match last_opt signal, last_opt close with
      | Some latest_signal, Some latest_price =>
          match Z.eqb latest_signal 1, si_position si with
          | true, None =>
              match latest_price with
              | None => None
              | Some price =>
                  if Qeq_bool price 0 then None
                  else
                    let qty := py_int (cash * (2 # 10) / price) in
                    if (0 <? qty)%Z
                    then Some [MkOrder (si_symbol si) qty SideBuy]
                    else Some []
              end
          | _, _ =>
              match Z.eqb latest_signal (-1), si_position si with
              | true, Some p =>
                  Some [MkOrder (si_symbol si) (Z.abs (pos_qty p)) SideSell]
              | _, _ => Some []
              end
          end
      | _, _ => None
      end
  end.

(** [execute_trading_cycle]: the account's cash is read once, then each
    symbol in turn, an exception being caught and logged. *)
Definition trading_cycle (cash : Q) (inputs : list symbol_input) : list order :=
  concat (map (fun si => match symbol_step cash si with
                         | Some os => os
                         | None => []
                         end) inputs).

(** The running maximum once a value [e] is read. *)
Definition next_peak (m : option Q) (e : Q) : Q :=
  match m with Some w => Qmax w e | None => e end.

(** * Properties *)

(** ** Helper lemmas *)

Lemma Qplus_comm_syntactic (x y : Q) : x + y = y + x.
Proof.
  destruct x as [a b], y as [c d]. unfold Qplus; simpl.
  f_equal; [apply Z.add_comm | apply Pos.mul_comm].
Qed.

Lemma py_max_Qmax (a b : Q) : py_max a b == Qmax a b.
Proof.
  unfold py_max. destruct (Qle_bool b a) eqn:E; simpl.
  - apply Qle_bool_iff in E. symmetry. apply Q.max_l. exact E.
  - assert (H : ~ b <= a) by (intro H; apply Qle_bool_iff in H; congruence).
    symmetry. apply Q.max_r. apply Qlt_le_weak. apply Qnot_le_lt. exact H.
Qed.

(** [calculate_entry_cost] unfolded: the breakdown, or the division error
    of a zero quantity. *)
Lemma calculate_entry_cost_eq (model : CostModel) (price quantity : Q)
    (side : string) :
  calculate_entry_cost model price quantity side =
  let gross := price * quantity in
  let comm := py_max (gross * commission_pct model / 100) (commission_min model) in
  let spread := gross * spread_pct model / 100 in
  let slip := gross * slippage_pct model / 100 in
  let total := comm + spread + slip in
  if Qeq_bool quantity 0 then Err ZeroDivisionError
  else Ok (MkCostBreakdown gross comm spread slip total
             (if String.eqb side "buy" then (gross + total) / quantity
              else (gross - total) / quantity)).
Proof.
  unfold calculate_entry_cost, py_div; simpl.
  destruct (String.eqb side "buy"), (Qeq_bool quantity 0); reflexivity.
Qed.

(** ** C1: [calculate_positions] *)

(** C1. A Sell signal is supposed to make the position Flat (0), as the
    docstring of [calculate_positions] says; the code forward-fills the
    raw signal, so after Buy then Sell the position is -1, not 0. *)
Theorem calculate_positions_sell_gives_minus_one :
  calculate_positions [1; -1]%Z = [1; -1]%Z /\
  calculate_positions [1; -1]%Z <> [1; 0]%Z.
Proof. split; [reflexivity | discriminate]. Qed.

(** ** C2: strategy returns and equity *)

(** C2. Closes [100; 110], signals [Buy; Hold], initial capital 10000:
    bar 1 earns the bar-0 position times the 10% simple return, so its
    equity is 11000, but bar 0's strategy return and its equity are both
    NaN, not the initial capital. *)
Theorem backtest_equity_bar0_is_nan :
  let '(position, sr, equity) :=
    backtest_columns 10000 [1; 0]%Z (pct_change [Some 100; Some 110]) in
  position = [1; 1]%Z /\
  nth 0%nat sr (Some 0) = None /\
  nth 0%nat equity (Some 0) = None /\
  match nth 1%nat sr None, nth 1%nat equity None with
  | Some r, Some e => r == 1 * (110 / 100 - 1) /\ e == 10000 * (1 + r)
  | _, _ => False
  end.
Proof. vm_compute. repeat split; reflexivity. Qed.

(** ** C3: [calculate_entry_cost] *)

(** C3. For a positive quantity the breakdown follows the cost model's
    formulas, and the default model charges 0.6 on a buy of 10 at 100,
    for an effective price of 100.06. *)
Theorem calculate_entry_cost_breakdown (model : CostModel) (price quantity : Q)
    (side : string) (Hq : 0 < quantity) :
  exists r, calculate_entry_cost model price quantity side = Ok r /\
    gross_value r = price * quantity /\
    commission r == Qmax (gross_value r * commission_pct model / 100)
                         (commission_min model) /\
    spread_cost r = gross_value r * spread_pct model / 100 /\
    slippage_cost r = gross_value r * slippage_pct model / 100 /\
    total_cost r = commission r + spread_cost r + slippage_cost r /\
    (side = "buy"%string ->
       effective_price r = (gross_value r + total_cost r) / quantity) /\
    (side = "sell"%string ->
       effective_price r = (gross_value r - total_cost r) / quantity) /\
  exists r0, calculate_entry_cost CostModel_default 100 10 "buy" = Ok r0 /\
    total_cost r0 == 0.6 /\ effective_price r0 == 100.06.
Proof.
  rewrite calculate_entry_cost_eq; cbv zeta.
  assert (Hz : Qeq_bool quantity 0 = false).
  { apply not_true_iff_false. intro H. apply Qeq_bool_iff in H. lra. }
  rewrite Hz. eexists. split; [reflexivity |]. simpl.
  split; [reflexivity |]. split; [apply py_max_Qmax |].
  split; [reflexivity |]. split; [reflexivity |]. split; [reflexivity |].
  split; [intros ->; reflexivity |].
  split; [intros ->; reflexivity |].
  eexists. split; [reflexivity |]. split; reflexivity.
Qed.

Lemma calculate_entry_cost_breakdown_witness :
  0 < 10 /\
  exists r, calculate_entry_cost CostModel_default 100 10 "sell" = Ok r /\
    total_cost r == 0.6.
Proof.
  split; [reflexivity |].
  destruct (calculate_entry_cost_breakdown CostModel_default 100 10 "sell"
              ltac:(reflexivity)) as [r [Hr [_ [_ [_ [_ [Ht _]]]]]]].
  exists r. split; [exact Hr |].
  rewrite Ht. rewrite calculate_entry_cost_eq in Hr. vm_compute in Hr.
  injection Hr as <-. reflexivity.
Defined.

(** ** C8: zero quantity *)

(** C8 (as stated). With quantity 0 the call fails with Python's
    [ZeroDivisionError], not with an [InvalidQuantityError]. *)
Lemma calculate_entry_cost_zero_quantity_not_invalid_quantity :
  calculate_entry_cost CostModel_default 100 0 "buy" <> Err InvalidQuantityError.
Proof. vm_compute. discriminate. Qed.

(** C8 (amended). For every cost model, price and side, quantity 0 makes
    [calculate_entry_cost] raise [ZeroDivisionError]. *)
Theorem calculate_entry_cost_zero_quantity (model : CostModel) (price : Q)
    (side : string) :
  calculate_entry_cost model price 0 side = Err ZeroDivisionError.
Proof. rewrite calculate_entry_cost_eq. reflexivity. Qed.

(** ** C10: side-independence of the total cost *)

(** C10. The total cost of a fill does not depend on the side (the same
    error for a zero quantity), so the round-trip cost is symmetric in
    its two prices. *)
Theorem total_cost_side_independent_roundtrip_symmetric :
  (forall (model : CostModel) (price quantity : Q),
     fmap total_cost (calculate_entry_cost model price quantity "buy") =
     fmap total_cost (calculate_entry_cost model price quantity "sell")) /\
  (forall (model : CostModel) (a b quantity : Q),
     calculate_roundtrip_cost model a b quantity =
     calculate_roundtrip_cost model b a quantity).
Proof.
  split.
  - intros model price quantity. rewrite !calculate_entry_cost_eq; cbv zeta.
    destruct (Qeq_bool quantity 0); reflexivity.
  - intros model a b quantity. unfold calculate_roundtrip_cost.
    rewrite !calculate_entry_cost_eq; cbv zeta.
    destruct (Qeq_bool quantity 0); simpl; [reflexivity |].
    f_equal. apply Qplus_comm_syntactic.
Qed.

(** ** Signals *)

Lemma nth_per_bar {A : Type} (n k : nat) (f : nat -> A) (d : A) :
  nth k (per_bar n f) d = if (k <? n)%nat then f k else d.
Proof.
  unfold per_bar. destruct (Nat.ltb_spec k n) as [H | H].
  - rewrite nth_indep with (d' := f 0%nat) by (rewrite length_map, length_seq; lia).
    rewrite map_nth, seq_nth by exact H. reflexivity.
  - apply nth_overflow. rewrite length_map, length_seq. exact H.
Qed.

Lemma nth_shift1_0 (xs : list cell) : nth 0%nat (shift1 xs) None = None.
Proof. unfold shift1. destruct xs; reflexivity. Qed.

Lemma nth_shift1_S (xs : list cell) (k : nat) :
  nth (S k) (shift1 xs) None = None \/ nth (S k) (shift1 xs) None = nth k xs None.
Proof.
  unfold shift1. rewrite nth_firstn. destruct (S k <? length xs)%nat.
  - right. reflexivity.
  - left. reflexivity.
Qed.

Lemma cle_cgt (a b : cell) : cle a b = true -> cgt a b = false.
Proof. destruct a, b; simpl; try discriminate. intros ->. reflexivity. Qed.

Lemma assign_signal_buy (b s : bool) : assign_signal b s = 1%Z -> b = true.
Proof. destruct b, s; simpl; congruence. Qed.

Lemma assign_signal_sell (b s : bool) : assign_signal b s = (-1)%Z -> s = true.
Proof. destruct b, s; simpl; congruence. Qed.

(** The shape shared by both edge-triggered rules: a bar's mask is its
    condition and the previous bar's negated condition, the latter false at
    bar 0. *)
Lemma edge_triggered_shape (n : nat) (buy sell bprev sprev : nat -> bool) :
  bprev 0%nat = false -> sprev 0%nat = false ->
  (forall k, bprev (S k) = true -> buy k = false) ->
  (forall k, sprev (S k) = true -> sell k = false) ->
  edge_triggered buy sell
    (per_bar n (fun i => assign_signal (buy i && bprev i) (sell i && sprev i))).
Proof.
  intros B0 S0 Bk Sk. split; [| split].
  - rewrite nth_per_bar. destruct (0 <? n)%nat; [| reflexivity].
    rewrite B0, S0, !andb_false_r. reflexivity.
  - intros i j k Hst Hk Hs. rewrite nth_per_bar in Hs.
    destruct (k <? n)%nat; [| discriminate].
    apply assign_signal_buy, andb_true_iff in Hs as [_ Hp].
    destruct k as [| k]; [congruence |].
    apply Bk in Hp. destruct (Nat.eq_dec (S k) i) as [-> | Hne]; [reflexivity |].
    rewrite Hst in Hp by lia. discriminate.
  - intros i j k Hst Hk Hs. rewrite nth_per_bar in Hs.
    destruct (k <? n)%nat; [| discriminate].
    apply assign_signal_sell, andb_true_iff in Hs as [_ Hp].
    destruct k as [| k]; [congruence |].
    apply Sk in Hp. destruct (Nat.eq_dec (S k) i) as [-> | Hne]; [reflexivity |].
    rewrite Hst in Hp by lia. discriminate.
Qed.

(** ** C4: edge-triggered strategies *)

(** C4. Whenever [MomentumStrategy] or [MACDStrategy] produces its signal
    column, bar 0 carries no signal, and a Buy (Sell) inside a stretch of
    bars that all meet the buy (sell) condition sits at the stretch's first
    bar; hence at most one Buy (Sell) per stretch. *)
Theorem edge_strategies_emit_once_per_stretch :
  (forall (m : momentum_cfg) (t : frame) (signal : list Z),
     generate_signals (Momentum m) t = Ok signal ->
     edge_triggered (momentum_buy_condition m t) (momentum_sell_condition m t)
                    signal) /\
  (forall (t : frame) (signal : list Z),
     generate_signals MACD t = Ok signal ->
     edge_triggered (macd_buy_condition t) (macd_sell_condition t) signal).
Proof.
  split.
  - intros m t signal H. simpl in H.
    unfold momentum_buy_condition, momentum_sell_condition, column_or_empty.
    destruct (get_col t (momentum_rsi_col m t)) as [rsi |]; simpl in H;
      [| discriminate].
    injection H as <-. unfold momentum_signals.
    apply edge_triggered_shape.
    + rewrite nth_shift1_0. reflexivity.
    + rewrite nth_shift1_0. reflexivity.
    + intros k Hp. destruct (nth_shift1_S rsi k) as [E | E]; rewrite E in Hp;
        [discriminate | apply cle_cgt; exact Hp].
    + intros k Hp. destruct (nth_shift1_S rsi k) as [E | E]; rewrite E in Hp;
        [discriminate | apply cle_cgt; exact Hp].
  - intros t signal H. simpl in H.
    unfold macd_buy_condition, macd_sell_condition, column_or_empty.
    destruct (get_col t "macd") as [macd |]; simpl in H; [| discriminate].
    destruct (get_col t "macd_signal") as [msig |]; simpl in H; [| discriminate].
    injection H as <-. unfold macd_signals.
    apply edge_triggered_shape.
    + rewrite !nth_shift1_0. reflexivity.
    + rewrite !nth_shift1_0. reflexivity.
    + intros k Hp.
      destruct (nth_shift1_S macd k) as [E | E]; rewrite E in Hp;
        [destruct (nth (S k) (shift1 msig) None); discriminate |].
      destruct (nth_shift1_S msig k) as [F | F]; rewrite F in Hp;
        [destruct (nth k macd None); discriminate | apply cle_cgt; exact Hp].
    + intros k Hp.
      destruct (nth_shift1_S macd k) as [E | E]; rewrite E in Hp;
        [destruct (nth (S k) (shift1 msig) None); discriminate |].
      destruct (nth_shift1_S msig k) as [F | F]; rewrite F in Hp;
        [destruct (nth k macd None); discriminate | apply cle_cgt; exact Hp].
Qed.

Lemma edge_strategies_emit_once_per_stretch_witness :
  generate_signals (Momentum momentum_default)
    (Frame [("rsi_14"%string, [Some 40; Some 55; Some 60; Some 45])])
  = Ok [0; 1; 0; -1]%Z /\
  edge_triggered
    (momentum_buy_condition momentum_default
       (Frame [("rsi_14"%string, [Some 40; Some 55; Some 60; Some 45])]))
    (momentum_sell_condition momentum_default
       (Frame [("rsi_14"%string, [Some 40; Some 55; Some 60; Some 45])]))
    [0; 1; 0; -1]%Z.
Proof.
  split; [vm_compute; reflexivity |].
  apply (proj1 edge_strategies_emit_once_per_stretch).
  vm_compute. reflexivity.
Defined.

(** ** Column lookups *)

Lemma get_col_missing (t : frame) (c : string) :
  has_col t c = false -> get_col t c = Err (KeyError c).
Proof.
  unfold has_col, get_col. induction (columns t) as [| kv r IH]; simpl;
    [reflexivity |].
  destruct (String.eqb (fst kv) c); simpl; [discriminate | exact IH].
Qed.

Lemma get_col_present (t : frame) (c : string) :
  has_col t c = true -> exists v, get_col t c = Ok v.
Proof.
  unfold has_col, get_col. induction (columns t) as [| kv r IH]; simpl;
    [discriminate |].
  destruct (String.eqb (fst kv) c); simpl; [eauto | exact IH].
Qed.

(** Read one column: either it is there and the computation goes on, or
    the lookup raises [KeyError] naming it. *)
Ltac read_column t c :=
  let E := fresh "E" in
  destruct (has_col t c) eqn:E;
  [ let v := fresh "v" in let Hv := fresh "Hv" in
    destruct (get_col_present t c E) as [v Hv]; rewrite Hv; cbn [bind]
  | rewrite (get_col_missing t c E); cbn [bind];
    exists c; split; [reflexivity | split; [cbn [In]; tauto | exact E]] ].

(** Every variant raises [KeyError] on a table that lacks one of the
    columns it reads, naming a missing column it reads. *)
Lemma generate_signals_missing_column (s : strategy) (t : frame) (c : string) :
  In c (required_columns s t) -> has_col t c = false ->
  exists c', generate_signals s t = Err (KeyError c') /\
             In c' (required_columns s t) /\ has_col t c' = false.
Proof.
  intros Hin Hc.
  destruct s as [lo hi | m | | | fast slow]; cbn [generate_signals required_columns] in *.
  - read_column t "rsi_14"%string.
    destruct Hin as [<- | []]; congruence.
  - read_column t (momentum_rsi_col m t).
    destruct Hin as [<- | []]; congruence.
  - read_column t "macd"%string. read_column t "macd_signal"%string.
    destruct Hin as [<- | [<- | []]]; congruence.
  - read_column t "close"%string. read_column t "bb_upper"%string.
    read_column t "bb_lower"%string.
    destruct Hin as [<- | [<- | [<- | []]]]; congruence.
  - read_column t ("sma_" ++ py_str fast)%string.
    read_column t ("sma_" ++ py_str slow)%string.
    destruct Hin as [<- | [<- | []]]; congruence.
Qed.

(** ** C7: missing indicator columns *)

(** C7 (as stated). [MeanReversionStrategy] on a table without [rsi_14]
    fails with a [KeyError], not with a [MissingIndicatorError]. *)
Lemma mean_reversion_missing_rsi_key_error :
  generate_signals (MeanReversion 30 70)
    (Frame [("close"%string, [Some 100])]) = Err (KeyError "rsi_14") /\
  ~ exists c, generate_signals (MeanReversion 30 70)
                (Frame [("close"%string, [Some 100])])
              = Err (MissingIndicatorError c).
Proof.
  split; [reflexivity |]. intros [c H]. vm_compute in H. discriminate.
Qed.

(** C7 (amended). For every variant and every table that lacks a column
    the variant reads (after the momentum fallback), [generate_signals]
    fails with [KeyError] naming a missing column it reads, rather than
    defaulting it. *)
Theorem generate_signals_missing_column_key_error (s : strategy) (t : frame)
    (c : string) :
  In c (required_columns s t) -> has_col t c = false ->
  exists c', generate_signals s t = Err (KeyError c') /\
             In c' (required_columns s t) /\ has_col t c' = false.
Proof. apply generate_signals_missing_column. Qed.

Lemma generate_signals_missing_column_key_error_witness :
  In "macd_signal"%string (required_columns MACD (Frame [("macd"%string, [])])) /\
  has_col (Frame [("macd"%string, [])]) "macd_signal" = false /\
  exists c', generate_signals MACD (Frame [("macd"%string, [])]) = Err (KeyError c') /\
    In c' (required_columns MACD (Frame [("macd"%string, [])])) /\
    has_col (Frame [("macd"%string, [])]) c' = false.
Proof.
  split; [simpl; tauto |]. split; [reflexivity |].
  apply (generate_signals_missing_column_key_error MACD _ "macd_signal");
    [simpl; tauto | reflexivity].
Defined.

(** ** C9: the momentum fallback *)

(** C9. [MomentumStrategy] reads [rsi_<rsi_period>] when the table has it
    and [rsi_14] otherwise, computing the same signals from whichever it
    reads; every other variant reads a fixed set of columns and raises
    [KeyError] when one is missing. *)
Theorem momentum_rsi_fallback_only :
  (forall (m : momentum_cfg) (t : frame),
     has_col t ("rsi_" ++ py_str (rsi_period m)) = true ->
     generate_signals (Momentum m) t =
     fmap (momentum_signals (threshold m))
          (get_col t ("rsi_" ++ py_str (rsi_period m)))) /\
  (forall (m : momentum_cfg) (t : frame),
     has_col t ("rsi_" ++ py_str (rsi_period m)) = false ->
     generate_signals (Momentum m) t =
     fmap (momentum_signals (threshold m)) (get_col t "rsi_14")) /\
  (forall (s : strategy) (t t' : frame),
     is_momentum s = false -> required_columns s t = required_columns s t') /\
  (forall (s : strategy) (t : frame) (c : string),
     is_momentum s = false -> In c (required_columns s t) ->
     has_col t c = false ->
     exists c', generate_signals s t = Err (KeyError c')).
Proof.
  split; [| split; [| split]].
  - intros m t H. simpl. unfold momentum_rsi_col. rewrite H. reflexivity.
  - intros m t H. simpl. unfold momentum_rsi_col. rewrite H. reflexivity.
  - intros s t t' H. destruct s; simpl in *; congruence.
  - intros s t c _ Hin Hc.
    destruct (generate_signals_missing_column s t c Hin Hc) as [c' [H _]].
    exists c'. exact H.
Qed.

Lemma momentum_rsi_fallback_only_witness :
  has_col (Frame [("rsi_14"%string, [Some 60])]) "rsi_21" = false /\
  generate_signals (Momentum (MomentumCfg 21 50))
    (Frame [("rsi_14"%string, [Some 60])]) = Ok [0%Z].
Proof.
  split; [reflexivity |].
  rewrite (proj1 (proj2 momentum_rsi_fallback_only) (MomentumCfg 21 50)
             (Frame [("rsi_14"%string, [Some 60])]) eq_refl).
  reflexivity.
Defined.

(** ** C5: [run_comparison] *)

(** C5. A failing strategy is skipped, but when no strategy succeeds the
    frame of results has no columns and [sort_values('Sharpe Ratio')]
    raises [KeyError] instead of returning an empty ranking. *)
Theorem run_comparison_all_failed_key_error :
  run_comparison [("Momentum"%string, Err (KeyError "rsi_14"))]
  = Err (KeyError "Sharpe Ratio") /\
  run_comparison [] = Err (KeyError "Sharpe Ratio").
Proof. split; reflexivity. Qed.

(** ** Drawdown *)

Lemma div_pos_sign (a p : Q) :
  0 < p -> (a <= 0 -> a / p <= 0) /\ (a / p == 0 <-> a == 0).
Proof.
  intros Hp. split.
  - intros Ha. apply Qle_shift_div_r; [exact Hp | lra].
  - split; intros H.
    + destruct (Qlt_le_dec a 0) as [Hn | Hn].
      * assert (a / p < 0) by (apply Qlt_shift_div_r; [exact Hp | lra]). lra.
      * destruct (Qlt_le_dec 0 a) as [Hq | Hq]; [| lra].
        assert (0 < a / p) by (apply Qlt_shift_div_l; [exact Hp | lra]). lra.
    + assert (a / p <= 0) by (apply Qle_shift_div_r; [exact Hp | lra]).
      assert (0 <= a / p) by (apply Qle_shift_div_l; [exact Hp | lra]). lra.
Qed.

Lemma drawdown_at_some (e p : Q) :
  0 < p -> drawdown_at (Some e) (Some p) = Some ((e - p) / p).
Proof.
  intros Hp. unfold drawdown_at; simpl.
  destruct (Qeq_bool p 0) eqn:E; [| reflexivity].
  apply Qeq_bool_iff in E. lra.
Qed.

Lemma nondecreasing_from_Qeq (p q : Q) (l : list Q) :
  p == q -> nondecreasing_from (Some p) l <-> nondecreasing_from (Some q) l.
Proof.
  intros H. destruct l as [| e r]; simpl; [tauto |].
  split; intros [H1 H2]; split; auto; lra.
Qed.

Lemma next_peak_spec (m : option Q) (e : Q) :
  positive_peak m -> 0 < e ->
  0 < next_peak m e /\ e <= next_peak m e.
Proof.
  destruct m as [w |]; simpl; intros Hm He; [| lra].
  destruct (Q.max_spec w e) as [[H1 H2] | [H1 H2]]; rewrite H2; lra.
Qed.

Lemma drawdown_from_cons (m : option Q) (x : cell) (xs : list cell) :
  drawdown_from m (x :: xs) =
  match x with
  | None => None :: drawdown_from m xs
  | Some e => drawdown_at (Some e) (Some (next_peak m e))
              :: drawdown_from (Some (next_peak m e)) xs
  end.
Proof. destruct x as [e |], m as [w |]; reflexivity. Qed.

Lemma positive_cells_cons (x : cell) (xs : list cell) :
  positive_cells (x :: xs) -> positive_cells xs.
Proof. intros H v Hv. apply H. right. exact Hv. Qed.

Lemma drawdown_from_nonpos (m : option Q) (xs : list cell) :
  positive_peak m -> positive_cells xs ->
  forall v, In (Some v) (drawdown_from m xs) -> v <= 0.
Proof.
  revert m. induction xs as [| x xs IH]; intros m Hm Hxs v Hv; [destruct Hv |].
  rewrite drawdown_from_cons in Hv. destruct x as [e |].
  - assert (He : 0 < e) by (apply Hxs; left; reflexivity).
    destruct (next_peak_spec m e Hm He) as [Hp Hle].
    rewrite drawdown_at_some in Hv by exact Hp.
    destruct Hv as [Hv | Hv].
    + injection Hv as <-. apply (div_pos_sign _ _ Hp). lra.
    + exact (IH (Some (next_peak m e)) Hp (positive_cells_cons _ _ Hxs) v Hv).
  - destruct Hv as [Hv | Hv]; [discriminate |].
    exact (IH m Hm (positive_cells_cons _ _ Hxs) v Hv).
Qed.

Lemma drawdown_from_defined (m : option Q) (xs : list cell) :
  positive_peak m -> positive_cells xs -> (exists e, In (Some e) xs) ->
  exists v, In (Some v) (drawdown_from m xs).
Proof.
  revert m. induction xs as [| x xs IH]; intros m Hm Hxs [e0 He0]; [destruct He0 |].
  rewrite drawdown_from_cons. destruct x as [e |].
  - assert (He : 0 < e) by (apply Hxs; left; reflexivity).
    destruct (next_peak_spec m e Hm He) as [Hp _].
    rewrite drawdown_at_some by exact Hp. eexists. left. reflexivity.
  - destruct He0 as [He0 | He0]; [discriminate |].
    destruct (IH m Hm (positive_cells_cons _ _ Hxs) (ex_intro _ e0 He0)) as [v Hv].
    exists v. right. exact Hv.
Qed.

Lemma drawdown_from_zero_iff (m : option Q) (xs : list cell) :
  positive_peak m -> positive_cells xs ->
  (forall v, In (Some v) (drawdown_from m xs) -> v == 0) <->
  nondecreasing_from m (defined xs).
Proof.
  revert m. induction xs as [| x xs IH]; intros m Hm Hxs.
  - simpl. split; [tauto | intros _ v []].
  - rewrite drawdown_from_cons. destruct x as [e |]; simpl.
    + assert (He : 0 < e) by (apply Hxs; left; reflexivity).
      destruct (next_peak_spec m e Hm He) as [Hp Hle].
      rewrite drawdown_at_some by exact Hp.
      specialize (IH (Some (next_peak m e)) Hp (positive_cells_cons _ _ Hxs)).
      assert (Hall : (forall v, In (Some v) (Some ((e - next_peak m e) / next_peak m e)
                                  :: drawdown_from (Some (next_peak m e)) xs) -> v == 0)
                     <-> ((e - next_peak m e) / next_peak m e == 0 /\
                          forall v, In (Some v) (drawdown_from (Some (next_peak m e)) xs)
                                    -> v == 0)).
      { split.
        - intros H. split; [apply H; left; reflexivity |].
          intros v Hv. apply H. right. exact Hv.
        - intros [H0 H] v [Hv | Hv]; [injection Hv as <-; exact H0 | exact (H v Hv)]. }
      rewrite Hall, IH. clear Hall IH.
      destruct (div_pos_sign (e - next_peak m e) _ Hp) as [_ Hz].
      rewrite Hz.
      destruct m as [w |]; simpl in *.
      * destruct (Q.max_spec w e) as [[H1 H2] | [H1 H2]];
          split; intros [H3 H4]; split; try lra;
          first [ rewrite (nondecreasing_from_Qeq (Qmax w e) e) in H4 by lra
                | rewrite (nondecreasing_from_Qeq (Qmax w e) e) by lra ];
          exact H4.
      * split; intros [_ H]; split; auto; lra.
    + split.
      * intros H. apply IH; [exact Hm | exact (positive_cells_cons _ _ Hxs) |].
        intros v Hv. apply H. right. exact Hv.
      * intros H v [Hv | Hv]; [discriminate |].
        revert v Hv. apply IH; [exact Hm | exact (positive_cells_cons _ _ Hxs) | exact H].
Qed.

Lemma series_min_spec (xs : list cell) :
  (forall v, In (Some v) xs -> v <= 0) ->
  match series_min xs with
  | None => forall v, ~ In (Some v) xs
  | Some d => d <= 0 /\ (d == 0 <-> forall v, In (Some v) xs -> v == 0)
  end.
Proof.
  induction xs as [| x xs IH]; intros Hxs; simpl.
  - intros v [].
  - assert (Hr : forall v, In (Some v) xs -> v <= 0)
      by (intros v Hv; apply Hxs; right; exact Hv).
    specialize (IH Hr). destruct x as [e |].
    + assert (He : e <= 0) by (apply Hxs; left; reflexivity).
      destruct (series_min xs) as [d |].
      * destruct IH as [Hd Hiff].
        destruct (Q.min_spec e d) as [[H1 H2] | [H1 H2]]; rewrite H2;
          (split; [lra |]); split.
        -- intros H0 v [Hv | Hv]; [injection Hv as <-; lra |].
           apply Hiff; [lra | exact Hv].
        -- intros H. apply H. left. reflexivity.
        -- intros H0 v [Hv | Hv]; [injection Hv as <-; lra |].
           apply Hiff; [lra | exact Hv].
        -- intros H. apply Hiff. intros v Hv. apply H. right. exact Hv.
      * split; [exact He |]. split.
        -- intros H0 v [Hv | Hv]; [injection Hv as <-; exact H0 | destruct (IH v Hv)].
        -- intros H. apply H. left. reflexivity.
    + destruct (series_min xs) as [d |].
      * destruct IH as [Hd Hiff]. split; [exact Hd |]. rewrite Hiff.
        split; intros H v Hv.
        -- destruct Hv as [Hv | Hv]; [discriminate | apply H; exact Hv].
        -- apply H. right. exact Hv.
      * intros v [Hv | Hv]; [discriminate | exact (IH v Hv)].
Qed.

(** ** C6: maximum drawdown *)

(** C6 (as stated). A backtest with initial capital -100, closes
    [1; 1; 2] and a Buy at bar 0 has equity [NaN; -100; -200]: its
    max_drawdown is 0 although the equity falls. *)
Lemma max_drawdown_negative_capital :
  let '(_, _, equity) :=
    backtest_columns (-100) [1; 0; 0]%Z (pct_change [Some 1; Some 1; Some 2]) in
  exists d, max_drawdown equity = Some d /\ d == 0 /\
            ~ nondecreasing (defined equity).
Proof.
  vm_compute. eexists. split; [reflexivity |]. split; [reflexivity |].
  intros [_ [H _]]. apply H. reflexivity.
Qed.

(** C6 (amended). For an equity curve whose non-missing values are all
    positive and which has at least one, max_drawdown (NaN entries
    skipped) is at most 0, and it is 0 exactly when the non-missing equity
    values are non-decreasing. *)
Theorem max_drawdown_nonpos_zero_iff_nondecreasing (equity : list cell) :
  positive_cells equity -> (exists v, In (Some v) equity) ->
  exists d, max_drawdown equity = Some d /\ d <= 0 /\
            (d == 0 <-> nondecreasing (defined equity)).
Proof.
  intros Hpos Hdef.
  assert (Hnp := drawdown_from_nonpos None equity I Hpos).
  assert (Hsm := series_min_spec (drawdown_from None equity) Hnp).
  unfold max_drawdown, drawdown, expanding_max, nondecreasing.
  fold (drawdown_from None equity).
  destruct (series_min (drawdown_from None equity)) as [d |].
  - exists d. split; [reflexivity |]. destruct Hsm as [Hd Hiff].
    split; [exact Hd |]. rewrite Hiff. apply drawdown_from_zero_iff; [exact I | exact Hpos].
  - exfalso. destruct (drawdown_from_defined None equity I Hpos Hdef) as [v Hv].
    exact (Hsm v Hv).
Qed.

Lemma max_drawdown_nonpos_zero_iff_nondecreasing_witness :
  positive_cells [None; Some 10000; Some 11000] /\
  exists d, max_drawdown [None; Some 10000; Some 11000] = Some d /\ d <= 0 /\
            (d == 0 <-> nondecreasing (defined [None; Some 10000; Some 11000])).
Proof.
  assert (Hp : positive_cells [None; Some 10000; Some 11000]).
  { intros v [H | [H | [H | []]]]; try discriminate; injection H as <-; reflexivity. }
  split; [exact Hp |].
  apply (max_drawdown_nonpos_zero_iff_nondecreasing [None; Some 10000; Some 11000] Hp).
  exists 10000. right. left. reflexivity.
Defined.

(** ** Worked scenarios *)

Example momentum_scenario :
  let rsi := [Some 40; Some 45; Some 48; Some 55; Some 60] in
  generate_signals (Momentum momentum_default) (Frame [("rsi_14"%string, rsi)])
  = Ok [0; 0; 0; 1; 0]%Z /\
  calculate_positions [0; 0; 0; 1; 0]%Z = [0; 0; 0; 1; 1]%Z.
Proof. split; reflexivity. Qed.

Example run_comparison_isolates_one_failure :
  let ok (sr : Q) := Ok (MkMetrics 0 sr 0 0 0) in
  match run_comparison [("Mean Reversion"%string, ok 0.5);
                        ("momentum"%string, Err (KeyError "rsi_14"));
                        ("MACD"%string, ok 1.2)] with
  | Ok tbl => map row_strategy (trows tbl) = ["MACD"; "Mean Reversion"]%string
  | Err _ => False
  end.
Proof. reflexivity. Qed.

(** * Further properties of the code *)

(** ** Positions *)

Lemma firstn_map2 {A B C : Type} (f : A -> B -> C) (k : nat) (xs : list A) (ys : list B) :
  firstn k (map2 f xs ys) = map2 f (firstn k xs) (firstn k ys).
Proof.
  revert k ys. induction xs as [| x xs IH]; intros k ys.
  - destruct k; reflexivity.
  - destruct k, ys as [| y ys]; simpl; try reflexivity.
    f_equal. apply IH.
Qed.

Lemma firstn_ffill_from {A : Type} (k : nat) (m : option A) (xs : list (option A)) :
  firstn k (ffill_from m xs) = ffill_from m (firstn k xs).
Proof.
  revert k m. induction xs as [| [v |] xs IH]; intros k m.
  - destruct k; reflexivity.
  - destruct k; simpl; [reflexivity | f_equal; apply IH].
  - destruct k; simpl; [reflexivity | f_equal; apply IH].
Qed.

Lemma length_ffill_from {A : Type} (m : option A) (xs : list (option A)) :
  length (ffill_from m xs) = length xs.
Proof.
  revert m. induction xs as [| [v |] xs IH]; intros m; simpl; [reflexivity | |];
    f_equal; apply IH.
Qed.

Lemma length_calculate_positions (s : list Z) :
  length (calculate_positions s) = length s.
Proof.
  unfold calculate_positions, fillna0, ffill, replace0.
  rewrite length_map, length_ffill_from, length_map. reflexivity.
Qed.

(** The value carried forward by [ffill] after a prefix. *)
Fixpoint ffill_carry {A : Type} (m : option A) (xs : list (option A)) : option A :=
  match xs with
  | [] => m
  | None :: r => ffill_carry m r
  | Some v :: r => ffill_carry (Some v) r
  end.

Lemma ffill_from_app {A : Type} (m : option A) (xs ys : list (option A)) :
  ffill_from m (xs ++ ys) = ffill_from m xs ++ ffill_from (ffill_carry m xs) ys.
Proof.
  revert m. induction xs as [| [v |] xs IH]; intros m; simpl; [reflexivity | |];
    f_equal; apply IH.
Qed.

Lemma last_cons_default {A : Type} (a d : A) (l : list A) :
  last (a :: l) d = last l a.
Proof.
  revert a d. induction l as [| b l IH]; intros a d; [reflexivity |].
  change (last (a :: b :: l) d) with (last (b :: l) d). rewrite !IH. reflexivity.
Qed.

Lemma ffill_carry_last {A : Type} (m : option A) (xs : list (option A)) :
  ffill_carry m xs = last (ffill_from m xs) m.
Proof.
  revert m. induction xs as [| [v |] xs IH]; intros m; [reflexivity | |];
    cbn [ffill_carry ffill_from]; rewrite last_cons_default; apply IH.
Qed.

(** Every value [ffill] produces is the start value or one of the input's. *)
Lemma ffill_from_values {A : Type} (P : A -> Prop) (m : option A)
    (xs : list (option A)) :
  (forall v, m = Some v -> P v) -> (forall v, In (Some v) xs -> P v) ->
  forall v, In (Some v) (ffill_from m xs) -> P v.
Proof.
  revert m. induction xs as [| [w |] xs IH]; intros m Hm Hxs v Hv; simpl in Hv.
  - destruct Hv.
  - destruct Hv as [Hv | Hv].
    + apply Hxs. left. exact Hv.
    + refine (IH (Some w) _ _ v Hv).
      * intros u Hu. apply Hxs. left. exact Hu.
      * intros u Hu. apply Hxs. right. exact Hu.
  - destruct Hv as [Hv | Hv].
    + apply Hm. exact Hv.
    + refine (IH m Hm _ v Hv). intros u Hu. apply Hxs. right. exact Hu.
Qed.

Lemma ffill_from_defined_after {A : Type} (m : option A) (xs : list (option A))
    (i j : nat) :
  (j <= i < length xs)%nat -> nth j xs None <> None ->
  nth i (ffill_from m xs) None <> None.
Proof.
  revert m i j. induction xs as [| x xs IH]; intros m i j Hij Hj; [simpl in Hij; lia |].
  assert (Hall : forall m' i', m' <> None -> (i' < length xs)%nat ->
                 nth i' (ffill_from m' xs) None <> None).
  { clear IH Hij Hj. induction xs as [| [w |] xs IHx]; intros m' i' Hm' Hi';
      [simpl in Hi'; lia | |]; destruct i'; simpl in *; try congruence;
      apply IHx; try congruence; lia. }
  destruct j as [| j'], i as [| i']; simpl in *.
  - destruct x; simpl in *; congruence.
  - destruct x as [v |]; simpl in *; [| congruence]. apply Hall; [congruence | lia].
  - lia.
  - destruct x as [v |]; simpl; apply (IH _ i' j'); auto; lia.
Qed.

Lemma In_replace0 (s : list Z) (v : Z) :
  In (Some v) (replace0 s) -> In v s /\ v <> 0%Z.
Proof.
  unfold replace0. rewrite in_map_iff. intros [z [Hz Hin]].
  destruct (Z.eqb_spec z 0); [discriminate | injection Hz as <-; auto].
Qed.

Lemma In_fillna0 (xs : list (option Z)) (p : Z) :
  In p (fillna0 xs) -> p = 0%Z \/ In (Some p) xs.
Proof.
  unfold fillna0. rewrite in_map_iff. intros [[v |] [Hv Hin]]; subst; auto.
Qed.

Lemma nth_fillna0 (xs : list (option Z)) (i : nat) :
  nth i (fillna0 xs) 0%Z = match nth i xs None with Some v => v | None => 0%Z end.
Proof. revert i. induction xs as [| x xs IH]; intros [| i]; simpl; auto. Qed.

Lemma nth_replace0 (s : list Z) (i : nat) :
  nth i (replace0 s) None = if Z.eqb (nth i s 0%Z) 0 then None else Some (nth i s 0%Z).
Proof. revert i. induction s as [| z s IH]; intros [| i]; simpl; auto. Qed.

(** X1. No look-ahead in [calculate_positions]: the positions of the
    first [k] bars are those computed from the first [k] signals alone. *)
Theorem calculate_positions_prefix (k : nat) (s : list Z) :
  calculate_positions (firstn k s) = firstn k (calculate_positions s).
Proof.
  unfold calculate_positions, fillna0, ffill, replace0.
  rewrite firstn_map, firstn_ffill_from, firstn_map. reflexivity.
Qed.

(** X2. Appending one bar: a Hold (0) repeats the previous position (0
    before any signal), and any other signal value becomes the position. *)
Theorem calculate_positions_snoc (s : list Z) (z : Z) :
  calculate_positions (s ++ [z]) =
  calculate_positions s ++ [if Z.eqb z 0 then last (calculate_positions s) 0%Z else z].
Proof.
  unfold calculate_positions, fillna0, ffill, replace0.
  rewrite map_app, ffill_from_app, map_app. f_equal. simpl.
  destruct (Z.eqb z 0); [| reflexivity]. simpl. f_equal.
  rewrite ffill_carry_last. generalize (ffill_from None (map (fun z0 : Z => if (z0 =? 0)%Z then None else Some z0) s)).
  intros l. induction l as [| a l IH]; [reflexivity |].
  destruct l as [| b l]; [reflexivity |]. simpl in *. rewrite <- IH. reflexivity.
Qed.

(** X3. Every position is 0 or one of the signal values; in particular
    signals in {-1, 0, 1} give positions in {-1, 0, 1}. *)
Theorem calculate_positions_values (s : list Z) (p : Z) :
  In p (calculate_positions s) -> p = 0%Z \/ In p s.
Proof.
  unfold calculate_positions. intros H.
  destruct (In_fillna0 _ _ H) as [H0 | H0]; [left; exact H0 | right].
  refine (ffill_from_values (fun v => In v s) None _ _ _ p H0).
  - discriminate.
  - intros v Hv. apply (In_replace0 s v Hv).
Qed.

(** X4. Once any non-zero signal has occurred, the position is never 0
    again: there is no way back to Flat. *)
Theorem calculate_positions_never_flat_again (s : list Z) (i j : nat) :
  (j <= i < length s)%nat -> nth j s 0%Z <> 0%Z ->
  nth i (calculate_positions s) 0%Z <> 0%Z.
Proof.
  intros Hij Hj. unfold calculate_positions, ffill.
  assert (Hnj : nth j (replace0 s) None <> None).
  { rewrite nth_replace0. destruct (Z.eqb_spec (nth j s 0%Z) 0); [contradiction | discriminate]. }
  assert (Hlen : length (replace0 s) = length s) by apply length_map.
  assert (Hd := ffill_from_defined_after None (replace0 s) i j ltac:(lia) Hnj).
  rewrite nth_fillna0.
  destruct (nth i (ffill_from None (replace0 s)) None) as [v |] eqn:E; [| contradiction].
  assert (Hin : In (Some v) (ffill_from None (replace0 s))).
  { rewrite <- E. apply nth_In.
    destruct (Nat.lt_ge_cases i (length (ffill_from None (replace0 s)))) as [Hl | Hl]; [exact Hl |].
    rewrite nth_overflow in E by exact Hl. discriminate. }
  exact (ffill_from_values (fun v => v <> 0%Z) None _ ltac:(discriminate)
           (fun u Hu => proj2 (In_replace0 s u Hu)) v Hin).
Qed.

(** ** Signals *)

Lemma assign_signal_range (b s : bool) :
  assign_signal b s = (-1)%Z \/ assign_signal b s = 0%Z \/ assign_signal b s = 1%Z.
Proof. destruct b, s; simpl; auto. Qed.

Lemma per_bar_assign_range (n : nat) (f : nat -> bool * bool) (z : Z) :
  In z (per_bar n (fun i => assign_signal (fst (f i)) (snd (f i)))) ->
  z = (-1)%Z \/ z = 0%Z \/ z = 1%Z.
Proof.
  unfold per_bar. rewrite in_map_iff. intros [i [<- _]]. apply assign_signal_range.
Qed.

(** X5. Every strategy's [signal] column holds only -1, 0 and 1. *)
Theorem generate_signals_range (s : strategy) (t : frame) (signal : list Z) (z : Z) :
  generate_signals s t = Ok signal -> In z signal ->
  z = (-1)%Z \/ z = 0%Z \/ z = 1%Z.
Proof.
  intros H Hz.
  destruct s; simpl in H;
    repeat match type of H with
           | context [get_col ?t ?c] => destruct (get_col t c); simpl in H; [| discriminate]
           end;
    injection H as <-;
    first [ exact (per_bar_assign_range _ (fun i => (_, _)) z Hz) ].
Qed.

(** X6. Mean reversion is level-triggered: with [rsi_oversold <=
    rsi_overbought], every bar whose RSI is below the oversold level is a
    Buy, every bar above the overbought level a Sell, and every other bar
    (NaN included) a Hold, whatever the bars before. *)
Theorem mean_reversion_level_triggered (lo hi : Q) (t : frame) (signal : list Z)
    (i : nat) :
  lo <= hi -> generate_signals (MeanReversion lo hi) t = Ok signal ->
  (i < length signal)%nat ->
  let r := nth i (column_or_empty t "rsi_14") None in
  nth i signal 0%Z = (if clt r (Some lo) then 1%Z
                      else if cgt r (Some hi) then (-1)%Z else 0%Z).
Proof.
  intros Hlh H Hi. simpl in H. unfold column_or_empty.
  destruct (get_col t "rsi_14") as [rsi |]; simpl in H; [| discriminate].
  injection H as <-. unfold level_signals in *. unfold per_bar in Hi.
  rewrite length_map, length_seq in Hi.
  rewrite nth_per_bar, (proj2 (Nat.ltb_lt _ _) Hi). unfold assign_signal.
  destruct (nth i rsi None) as [r |]; simpl; [| reflexivity].
  destruct (Qle_bool r hi) eqn:E1, (Qle_bool lo r) eqn:E2; simpl; try reflexivity.
  assert (H1 : ~ r <= hi) by (intro Hc; apply Qle_bool_iff in Hc; congruence).
  assert (H2 : ~ lo <= r) by (intro Hc; apply Qle_bool_iff in Hc; congruence).
  lra.
Qed.

(** ** Backtest metrics *)

Lemma count_true_cons (b : bool) (bs : list bool) :
  count_true (b :: bs) = ((if b then 1 else 0) + count_true bs)%nat.
Proof. unfold count_true. destruct b; reflexivity. Qed.

Lemma count_true_mono {A : Type} (p q : A -> bool) (l : list A) :
  (forall x, In x l -> p x = true -> q x = true) ->
  (count_true (map p l) <= count_true (map q l))%nat.
Proof.
  induction l as [| x l IH]; intros H; [apply le_n |].
  simpl map. rewrite !count_true_cons.
  assert (IH' := IH (fun y Hy => H y (or_intror Hy))).
  destruct (p x) eqn:Ep; [rewrite (H x (or_introl eq_refl) Ep) |]; destruct (q x); lia.
Qed.

Lemma count_true_none {A : Type} (p : A -> bool) (l : list A) :
  (forall x, In x l -> p x = false) -> count_true (map p l) = 0%nat.
Proof.
  induction l as [| x l IH]; intros H; [reflexivity |].
  simpl map. rewrite count_true_cons, (H x (or_introl eq_refl)).
  apply IH. intros y Hy. apply H. right. exact Hy.
Qed.

Lemma cgt_cne_zero (c : cell) : cgt c (Some 0) = true -> cne c (Some 0) = true.
Proof.
  destruct c as [v |]; simpl; [| discriminate].
  destruct (Qle_bool v 0) eqn:E1, (Qeq_bool v 0) eqn:E2; simpl; try discriminate; auto.
  apply Qeq_bool_iff in E2. intros _. exfalso.
  assert (v <= 0) by lra. apply Qle_bool_iff in H. congruence.
Qed.

Lemma In_defined (v : Q) (xs : list cell) : In v (defined xs) <-> In (Some v) xs.
Proof.
  induction xs as [| [w |] xs IH]; simpl; [tauto | |].
  - rewrite IH. split; intros [H | H]; auto; [left; congruence | left; injection H; auto].
  - rewrite IH. split; [auto | intros [H | H]; [discriminate | exact H]].
Qed.

Lemma qsum_zero (l : list Q) : (forall x, In x l -> x == 0) -> qsum l == 0.
Proof.
  induction l as [| x l IH]; intros H; simpl; [reflexivity |].
  assert (Hx : x == 0) by (apply H; left; reflexivity).
  assert (Hl : qsum l == 0) by (apply IH; intros y Hy; apply H; right; exact Hy).
  lra.
Qed.

Lemma qvariance_zero (l : list Q) : (forall x, In x l -> x == 0) -> qvariance l == 0.
Proof.
  intros H.
  assert (Hm : qmean l == 0).
  { unfold qmean. rewrite (qsum_zero l H). unfold Qdiv. apply Qmult_0_l. }
  unfold qvariance. rewrite qsum_zero; [unfold Qdiv; apply Qmult_0_l |].
  intros y Hy. apply in_map_iff in Hy. destruct Hy as [x [<- Hx]].
  rewrite (H x Hx), Hm. reflexivity.
Qed.

Lemma shift1_cons_head (x : cell) (xs : list cell) :
  shift1 (x :: xs) = None :: firstn (length xs) (x :: xs).
Proof. reflexivity. Qed.

Lemma firstn_shift1 (k : nat) (xs : list cell) :
  firstn (S k) (shift1 xs) =
  match xs with [] => [] | _ => None :: firstn (Nat.min k (length xs - 1)) xs end.
Proof.
  destruct xs as [| x xs]; [reflexivity |].
  rewrite shift1_cons_head. simpl firstn at 1. f_equal.
  rewrite firstn_firstn. f_equal. simpl. lia.
Qed.

Lemma calculate_positions_firstn (k : nat) (s : list Z) :
  firstn k (calculate_positions s) = calculate_positions (firstn k s).
Proof.
  unfold calculate_positions, fillna0, ffill, replace0.
  rewrite firstn_map, firstn_ffill_from, firstn_map. reflexivity.
Qed.




(** X7. [total_trades] counts bar 0 as a trade and never as a win: the
    strategy return of the first bar is NaN ([position.shift(1)] is NaN
    there), and [NaN != 0] holds. A strategy that never trades still
    reports one trade. *)
Theorem total_trades_counts_first_bar (position : list Z) (returns : list cell) :
  position <> [] -> returns <> [] ->
  let sr := strategy_returns position returns in
  total_trades_of sr = S (total_trades_of (tl sr)) /\
  winning_trades sr = winning_trades (tl sr).
Proof.
  intros Hp Hr. destruct position as [| p ps]; [contradiction |].
  destruct returns as [| r rs]; [contradiction |].
  unfold strategy_returns. simpl map. rewrite shift1_cons_head. simpl. split; reflexivity.
Qed.

(** X8. [win_rate] always lies between 0 and 1: every winning bar
    ([> 0]) is also counted by [total_trades] ([!= 0]). *)
Theorem win_rate_bounds (sr : list cell) : 0 <= win_rate_of sr <= 1.
Proof.
  unfold win_rate_of.
  assert (Hle : (winning_trades sr <= total_trades_of sr)%nat)
    by (apply count_true_mono; intros c _; apply cgt_cne_zero).
  destruct (Nat.ltb_spec 0 (total_trades_of sr)) as [Ht | Ht]; [| lra].
  assert (Hq : 0 < inject_Z (Z.of_nat (total_trades_of sr)))
    by (change 0 with (inject_Z 0); rewrite <- Zlt_Qlt; lia).
  assert (Hw : inject_Z (Z.of_nat (winning_trades sr)) <= inject_Z (Z.of_nat (total_trades_of sr)))
    by (rewrite <- Zle_Qle; lia).
  assert (Hw0 : 0 <= inject_Z (Z.of_nat (winning_trades sr)))
    by (change 0 with (inject_Z 0); rewrite <- Zle_Qle; lia).
  split.
  - apply Qle_shift_div_l; [exact Hq | lra].
  - apply Qle_shift_div_r; [exact Hq | lra].
Qed.


(** X10. A prepared table with no rows makes [backtest] raise
    [IndexError] at [equity.iloc[-1]]. *)
Theorem backtest_empty_index_error (s : strategy) (t : frame) (ic : Q)
    (signal : list Z) :
  generate_signals s t = Ok signal -> get_col t "returns" = Ok [] ->
  backtest_prepared s t ic = Err IndexError.
Proof.
  intros Hs Hr. unfold backtest_prepared. rewrite Hs. simpl. rewrite Hr. simpl.
  unfold strategy_returns. destruct (shift1 (map to_cell (calculate_positions signal))); reflexivity.
Qed.

(** X11. When every defined strategy return is 0 (a strategy that never
    holds a position), [sharpe] is 0 and [win_rate] is 0. *)
Theorem sharpe_win_rate_zero_when_flat (sr : list cell) :
  (forall v, In (Some v) sr -> v == 0) ->
  sharpe_of sr = SharpeZero /\ win_rate_of sr == 0.
Proof.
  intros H. split.
  - unfold sharpe_of.
    assert (Hd : forall x, In x (defined sr) -> x == 0)
      by (intros x Hx; apply H; apply In_defined; exact Hx).
    destruct (defined sr) as [| a [| b l]] eqn:E; [reflexivity | reflexivity |].
    unfold std_positive.
    assert (Hv : qvariance (a :: b :: l) <= 0) by (rewrite (qvariance_zero _ Hd); lra).
    apply Qle_bool_iff in Hv. rewrite Hv. reflexivity.
  - unfold win_rate_of, winning_trades.
    rewrite count_true_none.
    + destruct (0 <? total_trades_of sr)%nat; [| reflexivity]. unfold Qdiv. apply Qmult_0_l.
    + intros [v |] Hv; [| reflexivity]. simpl.
      rewrite (H v Hv). reflexivity.
Qed.

(** X12. No look-ahead in the strategy returns: the returns of bars 0..k
    depend only on the signals of bars 0..k-1; a signal acts from the
    next bar on. *)
Theorem strategy_returns_no_lookahead (k : nat) (s s' : list Z) (returns : list cell) :
  length s = length s' -> firstn k s = firstn k s' ->
  firstn (S k) (strategy_returns (calculate_positions s) returns) =
  firstn (S k) (strategy_returns (calculate_positions s') returns).
Proof.
  intros Hlen Hpre. unfold strategy_returns. rewrite !firstn_map2, !firstn_shift1.
  assert (Hl : length (calculate_positions s) = length (calculate_positions s'))
    by (rewrite !length_calculate_positions; exact Hlen).
  destruct (calculate_positions s) as [| x xs] eqn:E1, (calculate_positions s') as [| y ys] eqn:E2;
    simpl in Hl; try discriminate; [reflexivity |].
  simpl map. simpl length. rewrite !length_map. rewrite Hl.
  assert (Hk : firstn k (x :: xs) = firstn k (y :: ys))
    by (rewrite <- E1, <- E2, !calculate_positions_firstn, Hpre; reflexivity).
  f_equal. f_equal.
  change (to_cell x :: map to_cell xs) with (map to_cell (x :: xs)).
  change (to_cell y :: map to_cell ys) with (map to_cell (y :: ys)).
  set (m := Nat.min k (S (length ys) - 1)).
  assert (Hm : m = Nat.min m k) by (unfold m; lia).
  rewrite Hm, <- !firstn_firstn, !firstn_map, Hk. reflexivity.
Qed.


(** ** Costs *)






(** ** Comparison table *)

Lemma insert_desc_perm (key : row -> Q) (r : row) (l : list row) :
  Permutation (insert_desc key r l) (r :: l).
Proof.
  induction l as [| x l IH]; simpl; [reflexivity |].
  destruct (Qle_bool (key x) (key r)); [reflexivity |].
  rewrite IH. apply perm_swap.
Qed.

Lemma sort_desc_perm (key : row -> Q) (l : list row) :
  Permutation (sort_desc key l) l.
Proof.
  induction l as [| r l IH]; simpl; [reflexivity |].
  rewrite insert_desc_perm. apply perm_skip. exact IH.
Qed.

Lemma insert_desc_sorted (key : row -> Q) (r : row) (l : list row) :
  Sorted (fun a b => key b <= key a) l ->
  Sorted (fun a b => key b <= key a) (insert_desc key r l).
Proof.
  induction l as [| x l IH]; intros Hs; simpl.
  - repeat constructor.
  - destruct (Qle_bool (key x) (key r)) eqn:E.
    + apply Qle_bool_iff in E. constructor; [exact Hs | constructor; exact E].
    + assert (Hrx : key r <= key x).
      { assert (~ key x <= key r) by (intro Hc; apply Qle_bool_iff in Hc; congruence). lra. }
      apply Sorted_inv in Hs. destruct Hs as [Hs Hh].
      constructor; [apply IH; exact Hs |].
      destruct l as [| y l]; simpl; [constructor; exact Hrx |].
      destruct (Qle_bool (key y) (key r)); constructor; [exact Hrx |].
      inversion Hh; assumption.
Qed.

Lemma sort_desc_sorted (key : row -> Q) (l : list row) :
  Sorted (fun a b => key b <= key a) (sort_desc key l).
Proof.
  induction l as [| r l IH]; simpl; [constructor |]. apply insert_desc_sorted. exact IH.
Qed.

(** X16. As soon as one strategy's backtest succeeds, [run_comparison]
    returns a table with the six columns whose rows are exactly the
    successful strategies, in non-increasing order of Sharpe ratio. *)
Theorem run_comparison_sorted_rows (outcomes : list (string * result metrics)) :
  collect_rows outcomes <> [] ->
  exists tbl, run_comparison outcomes = Ok tbl /\
    tcolumns tbl = comparison_columns /\
    Permutation (trows tbl) (collect_rows outcomes) /\
    Sorted (fun a b => sharpe_ratio (row_metrics b) <= sharpe_ratio (row_metrics a))
           (trows tbl).
Proof.
  intros Hne. unfold run_comparison, sort_values_desc, DataFrame.
  destruct (collect_rows outcomes) as [| r rs] eqn:E; [contradiction |].
  simpl tcolumns. simpl trows. eexists. split; [reflexivity |].
  split; [reflexivity |]. split.
  - apply (sort_desc_perm (fun r0 => sharpe_ratio (row_metrics r0))).
  - apply (sort_desc_sorted (fun r0 => sharpe_ratio (row_metrics r0))).
Qed.

(** ** Settings *)

Lemma split_dot_nonempty (s : string) : split_dot s <> [].
Proof.
  destruct s as [| c r]; simpl; [discriminate |].
  destruct (Ascii.eqb c "."%char); [discriminate |].
  destruct (split_dot r); discriminate.
Qed.

Lemma split_dot_app (a b : string) :
  split_dot (a ++ String "."%char b) = split_dot a ++ split_dot b.
Proof.
  induction a as [| c a IH]; [reflexivity |].
  simpl. rewrite IH.
  destruct (Ascii.eqb c "."%char); [reflexivity |].
  destruct (split_dot a) as [| p ps] eqn:E; [exfalso; exact (split_dot_nonempty a E) |].
  reflexivity.
Qed.

Lemma get_keys_app (v : yaml) (ks1 ks2 : list string) (d : yaml) :
  ks2 <> [] ->
  get_keys v (ks1 ++ ks2) d =
  match get_keys v ks1 YNull with YNull => d | v' => get_keys v' ks2 d end.
Proof.
  intros Hne. revert v. induction ks1 as [| k ks1 IH]; intros v.
  - simpl. destruct v; try reflexivity.
    destruct ks2; [contradiction | reflexivity].
  - simpl. destruct v; try reflexivity.
    destruct (dict_get kvs k); try reflexivity; apply IH.
Qed.

(** X17. Dotted lookups compose: [get('a.b', d)] looks [b] up in the
    value found at [a], and gives [d] when nothing (or None) is found at
    [a]. A non-dict value at [a] gives [d] as well. *)
Theorem settings_get_dotted (config : yaml) (p1 p2 : string) (default : yaml) :
  settings_get config (p1 ++ "." ++ p2) default =
  match settings_get config p1 YNull with
  | YNull => default
  | v => settings_get v p2 default
  end.
Proof.
  unfold settings_get. simpl. rewrite split_dot_app.
  apply get_keys_app. apply split_dot_nonempty.
Qed.

(** ** Train, validation and test split *)

Lemma py_int_nonneg (q : Q) : 0 <= q -> py_int q = Qfloor q.
Proof.
  intros H. unfold py_int. apply Qle_bool_iff in H. rewrite H. reflexivity.
Qed.

Lemma Qfloor_nonneg (q : Q) : 0 <= q -> (0 <= Qfloor q)%Z.
Proof.
  intros H. change 0%Z with (Qfloor 0). apply Qfloor_resp_le. exact H.
Qed.

Lemma py_index_nonneg (n : nat) (i : Z) :
  (0 <= i)%Z -> py_index n i = Nat.min (Z.to_nat i) n.
Proof.
  intros H. unfold py_index. destruct (Z.ltb_spec i 0); [lia | reflexivity].
Qed.

Lemma slices_partition {A : Type} (l : list A) (a b : nat) :
  (a <= b <= length l)%nat ->
  firstn (a - 0) (skipn 0 l) ++ firstn (b - a) (skipn a l)
    ++ firstn (length l - b) (skipn b l) = l.
Proof.
  intros H. rewrite Nat.sub_0_r. simpl skipn.
  rewrite (firstn_all2 (skipn b l)) by (rewrite length_skipn; lia).
  replace b with ((b - a) + a)%nat at 2 by lia.
  rewrite <- skipn_skipn, firstn_skipn, firstn_skipn. reflexivity.
Qed.

(** X18. With non-negative [train_pct] and [validation_pct], the three
    parts of [split_train_test] are consecutive pieces of the data: put
    back together in order they give the data, with nothing lost or
    repeated, and the training part has [min(int(n * train_pct), n)] rows. *)
Theorem split_train_test_partition {A : Type} (data : list A) (train_pct validation_pct : Q) :
  0 <= train_pct -> 0 <= validation_pct ->
  let '(train, validation, test) := split_train_test data train_pct validation_pct in
  train ++ validation ++ test = data /\
  length train = Nat.min (Z.to_nat (Qfloor (inject_Z (Z.of_nat (length data)) * train_pct)))
                         (length data).
Proof.
  intros Ht Hv. unfold split_train_test, iloc_slice.
  set (n := inject_Z (Z.of_nat (length data))).
  assert (Hn : 0 <= n) by (unfold n; change 0 with (inject_Z 0); rewrite <- Zle_Qle; lia).
  assert (H1 : 0 <= n * train_pct) by (apply Qmult_le_0_compat; assumption).
  assert (H2 : 0 <= n * (train_pct + validation_pct)) by (apply Qmult_le_0_compat; lra).
  assert (H12 : n * train_pct <= n * (train_pct + validation_pct)).
  { assert (n * (train_pct + validation_pct) == n * train_pct + n * validation_pct) by ring.
    assert (0 <= n * validation_pct) by (apply Qmult_le_0_compat; assumption). lra. }
  rewrite !py_int_nonneg by assumption.
  assert (F1 := Qfloor_nonneg _ H1). assert (F2 := Qfloor_nonneg _ H2).
  assert (F12 := Qfloor_resp_le _ _ H12).
  rewrite !py_index_nonneg by assumption.
  split.
  - apply slices_partition. lia.
  - rewrite Nat.sub_0_r, length_firstn. simpl skipn. lia.
Qed.

(** ** Synthetic regimes *)

Lemma nth_concat_repeat (rl : nat) (cs : list string) (i : nat) (d : string) :
  (0 < rl)%nat -> (i < length cs * rl)%nat ->
  nth i (concat (map (fun r => repeat r rl) cs)) d = nth (i / rl) cs d.
Proof.
  intros Hrl. revert i. induction cs as [| c cs IH]; intros i Hi; [simpl in Hi; lia |].
  simpl.
  destruct (Nat.ltb_spec i rl) as [Hlt | Hge].
  - rewrite app_nth1 by (rewrite repeat_length; exact Hlt).
    rewrite nth_repeat_lt by exact Hlt. rewrite Nat.div_small by exact Hlt. reflexivity.
  - rewrite app_nth2 by (rewrite repeat_length; exact Hge). rewrite repeat_length.
    rewrite IH by (simpl in Hi; lia).
    replace i with ((i - rl) + 1 * rl)%nat at 2 by lia.
    rewrite Nat.div_add by lia. rewrite Nat.add_1_r. reflexivity.
Qed.

(** X19. The regime schedule has one entry per date, and is made of the
    four drawn regimes in consecutive blocks of [regime_length] days, the
    last regime covering any remainder: day [i] is in regime
    [min(i / regime_length, 3)]. *)
Theorem synthetic_regimes_blocks (n : nat) (draws : list string) :
  length draws = 4%nat ->
  exists regimes, synthetic_regimes n draws = Ok regimes /\
    length regimes = n /\
    forall i, (i < n)%nat ->
      nth i regimes EmptyString
      = nth (Nat.min (i / regime_length n) 3) draws EmptyString.
Proof.
  intros H4. destruct draws as [| c0 [| c1 [| c2 [| c3 [| ? ?]]]]]; simpl in H4; try discriminate.
  clear H4. unfold synthetic_regimes.
  set (rl := regime_length n).
  set (base := concat (map (fun r => repeat r rl) [c0; c1; c2; c3])).
  assert (Hbl : length base = (4 * rl)%nat).
  { unfold base. simpl. rewrite !length_app, !repeat_length. simpl. lia. }
  destruct n as [| n'].
  { exists []. unfold pad_regimes. rewrite Hbl. simpl.
    destruct (4 * rl <? 0)%nat; simpl; [destruct (rev base); simpl |];
      repeat split; try reflexivity; intros i Hi; lia. }
  set (n := S n') in *.
  assert (Hrl : (0 < rl)%nat).
  { unfold rl, regime_length. destruct (Nat.ltb_spec 4 n).
    - apply Nat.div_str_pos. lia.
    - unfold n. lia. }
  assert (Hlast : exists tl, rev base = c3 :: tl).
  { assert (Hr : forall (x : string) k, repeat x (S k) = repeat x k ++ [x]).
    { intros x k. induction k as [| k IHk]; [reflexivity |].
      simpl. f_equal. exact IHk. }
    replace base with ((repeat c0 rl ++ repeat c1 rl ++ repeat c2 rl) ++ repeat c3 rl)
      by (unfold base; simpl; rewrite app_nil_r, <- !app_assoc; reflexivity).
    destruct rl as [| r']; [lia |].
    rewrite (Hr c3 r'), app_assoc, rev_unit. eexists. reflexivity. }
  unfold pad_regimes. rewrite Hbl.
  destruct (Nat.ltb_spec (4 * rl) n) as [Hlt | Hge].
  - destruct Hlast as [tl Htl]. rewrite Htl.
    eexists. split; [reflexivity |]. split.
    + rewrite length_firstn, length_app, repeat_length, Hbl. lia.
    + intros i Hi. rewrite nth_firstn, (proj2 (Nat.ltb_lt _ _) Hi).
      destruct (Nat.ltb_spec i (4 * rl)) as [Hi4 | Hi4].
      * rewrite app_nth1 by lia. unfold base.
        rewrite nth_concat_repeat by (simpl; lia).
        assert (i / rl < 4)%nat by (apply Nat.Div0.div_lt_upper_bound; lia).
        rewrite Nat.min_l by lia. reflexivity.
      * rewrite app_nth2 by lia. rewrite nth_repeat_lt by lia.
        assert (4 <= i / rl)%nat by (apply Nat.div_le_lower_bound; lia).
        rewrite Nat.min_r by lia. reflexivity.
  - eexists. split; [reflexivity |]. split.
    + rewrite length_firstn, Hbl. lia.
    + intros i Hi. rewrite nth_firstn, (proj2 (Nat.ltb_lt _ _) Hi).
      unfold base. rewrite nth_concat_repeat by (simpl; lia).
      assert (i / rl < 4)%nat by (apply Nat.Div0.div_lt_upper_bound; lia).
      rewrite Nat.min_l by lia. reflexivity.
Qed.

(** ** Trading cycle *)

Lemma py_int_pos (q : Q) : (0 < py_int q)%Z -> 0 < q /\ inject_Z (py_int q) <= q.
Proof.
  unfold py_int. destruct (Qle_bool 0 q) eqn:E.
  - apply Qle_bool_iff in E. intros H. assert (Hf := Qfloor_le q).
    assert (H1 : 1 <= inject_Z (Qfloor q)) by (change 1 with (inject_Z 1); rewrite <- Zle_Qle; lia).
    split; lra.
  - intros H. exfalso.
    assert (Hq : ~ 0 <= q) by (intro Hc; apply Qle_bool_iff in Hc; congruence).
    assert (Hn : 0 <= - q) by lra.
    assert (F := Qfloor_nonneg _ Hn). lia.
Qed.

Lemma symbol_step_length (cash : Q) (si : symbol_input) (orders : list order) :
  symbol_step cash si = Some orders -> (length orders <= 1)%nat.
Proof.
  unfold symbol_step. intros H.
  destruct (si_columns si) as [[signal close] |]; [| discriminate].
  destruct (last_opt signal) as [z |], (last_opt close) as [c |]; try discriminate.
  destruct (Z.eqb z 1), (si_position si) as [p |];
    try (destruct (Z.eqb z (-1)); injection H as <-; simpl; lia).
  destruct c as [price |]; [| discriminate].
  destruct (Qeq_bool price 0); [discriminate |].
  destruct (0 <? _)%Z; injection H as <-; simpl; lia.
Qed.

(** X20. What one symbol's turn of a cycle can order (with non-negative
    cash): a buy only on a latest signal of 1 with no open position, for a
    positive whole number of shares worth at most 20% of the cash at a
    positive latest close; a sell only on a latest signal of -1 with an
    open position, for the absolute size of that position. *)
Theorem symbol_step_orders (cash : Q) (si : symbol_input) (orders : list order)
    (o : order) :
  0 <= cash -> symbol_step cash si = Some orders -> In o orders ->
  o_symbol o = si_symbol si /\
  exists signal close, si_columns si = Some (signal, close) /\
  match o_side o with
  | SideBuy =>
      last_opt signal = Some 1%Z /\ si_position si = None /\
      exists price, last_opt close = Some (Some price) /\ 0 < price /\
        (0 < o_qty o)%Z /\ inject_Z (o_qty o) * price <= cash * (2 # 10)
  | SideSell =>
      last_opt signal = Some (-1)%Z /\
      exists p, si_position si = Some p /\ o_qty o = Z.abs (pos_qty p)
  end.
Proof.
  intros Hcash H Ho. unfold symbol_step in H.
  destruct (si_columns si) as [[signal close] |] eqn:Ecol; [| discriminate].
  destruct (last_opt signal) as [z |] eqn:Es, (last_opt close) as [c |] eqn:Ec;
    try discriminate.
  destruct (Z.eqb_spec z 1) as [Hz1 | Hz1], (si_position si) as [p |] eqn:Ep.
  - destruct (Z.eqb_spec z (-1)); [subst; discriminate |].
    injection H as <-. destruct Ho.
  - destruct c as [price |]; [| discriminate].
    destruct (Qeq_bool price 0) eqn:Ep0; [discriminate |].
    destruct (Z.ltb_spec 0 (py_int (cash * (2 # 10) / price))) as [Hq | Hq];
      injection H as <-; [| destruct Ho]. destruct Ho as [<- | []].
    simpl. split; [reflexivity |]. exists signal, close. split; [first [reflexivity | assumption] |].
    subst z. split; [first [reflexivity | assumption] |]. split; [first [reflexivity | assumption] |].
    destruct (py_int_pos _ Hq) as [Hx Hle].
    assert (Hp0 : ~ price == 0) by (intro Hc; apply Qeq_bool_iff in Hc; congruence).
    assert (Hpos : 0 < price).
    { destruct (Qlt_le_dec 0 price) as [Hp | Hp]; [exact Hp | exfalso].
      assert (Hneg : 0 < - price) by (destruct (Qle_lt_or_eq _ _ Hp); [lra | contradiction]).
      assert (E : cash * (2 # 10) / price == - (cash * (2 # 10) / - price)) by (field; exact Hp0).
      assert (0 <= cash * (2 # 10) / - price)
        by (apply Qle_shift_div_l; [exact Hneg | rewrite Qmult_0_l; lra]).
      lra. }
    exists price. split; [first [reflexivity | assumption] |]. split; [exact Hpos |]. split; [exact Hq |].
    apply Qmult_le_compat_r with (z := price) in Hle; [| lra].
    assert (E : cash * (2 # 10) / price * price == cash * (2 # 10)) by (field; exact Hp0).
    lra.
  - destruct (Z.eqb_spec z (-1)) as [Hm | Hm]; injection H as <-; [| destruct Ho].
    destruct Ho as [<- | []]. simpl. split; [reflexivity |].
    exists signal, close. split; [first [reflexivity | assumption] |]. subst z. split; [first [reflexivity | assumption] |].
    exists p. split; [first [reflexivity | assumption] | reflexivity].
  - destruct (Z.eqb z (-1)); injection H as <-; destruct Ho.
Qed.

(** X21. Within a cycle a symbol whose processing raises places no order
    and leaves the other symbols' orders unchanged, and no symbol places
    more than one order. *)
Theorem trading_cycle_isolation (cash : Q) (xs ys : list symbol_input)
    (si : symbol_input) :
  symbol_step cash si = None ->
  trading_cycle cash (xs ++ si :: ys) = trading_cycle cash xs ++ trading_cycle cash ys /\
  (length (trading_cycle cash (xs ++ si :: ys)) <= length (xs ++ ys))%nat.
Proof.
  intros H.
  assert (Hcyc : trading_cycle cash (xs ++ si :: ys) = trading_cycle cash xs ++ trading_cycle cash ys).
  { unfold trading_cycle. rewrite map_app, concat_app. simpl. rewrite H. reflexivity. }
  split; [exact Hcyc |].
  assert (Hle : forall l, (length (trading_cycle cash l) <= length l)%nat).
  { induction l as [| x l IH]; [apply le_n |].
    unfold trading_cycle in *. simpl. rewrite length_app.
    destruct (symbol_step cash x) as [os |] eqn:E; [apply symbol_step_length in E |]; simpl; lia. }
  rewrite Hcyc, length_app, length_app. assert (H1 := Hle xs). assert (H2 := Hle ys). lia.
Qed.

(** ** Instances of the properties on concrete inputs *)

Lemma calculate_positions_values_witness :
  In (-1)%Z (calculate_positions [1; 0; -1; 0]%Z) /\
  ((-1)%Z = 0%Z \/ In (-1)%Z [1; 0; -1; 0]%Z).
Proof.
  assert (H : In (-1)%Z (calculate_positions [1; 0; -1; 0]%Z)) by (simpl; auto).
  split; [exact H | exact (calculate_positions_values _ _ H)].
Defined.

Lemma calculate_positions_never_flat_again_witness :
  (1 <= 3 < length [0; -1; 0; 0]%Z)%nat /\ nth 1 [0; -1; 0; 0]%Z 0%Z <> 0%Z /\
  nth 3 (calculate_positions [0; -1; 0; 0]%Z) 0%Z <> 0%Z.
Proof.
  assert (H1 : (1 <= 3 < length [0; -1; 0; 0]%Z)%nat) by (simpl; lia).
  assert (H2 : nth 1 [0; -1; 0; 0]%Z 0%Z <> 0%Z) by (simpl; discriminate).
  split; [exact H1 | split; [exact H2 |]].
  exact (calculate_positions_never_flat_again _ 3 1 H1 H2).
Defined.

Lemma generate_signals_range_witness :
  generate_signals (Momentum momentum_default)
    (Frame [("rsi_14"%string, [Some 40; Some 45; Some 48; Some 55; Some 60])])
  = Ok [0; 0; 0; 1; 0]%Z /\
  In 1%Z [0; 0; 0; 1; 0]%Z /\ (1 = -1 \/ 1 = 0 \/ 1 = 1)%Z.
Proof.
  assert (H : generate_signals (Momentum momentum_default)
                (Frame [("rsi_14"%string, [Some 40; Some 45; Some 48; Some 55; Some 60])])
              = Ok [0; 0; 0; 1; 0]%Z) by reflexivity.
  assert (Hin : In 1%Z [0; 0; 0; 1; 0]%Z) by (simpl; auto).
  split; [exact H | split; [exact Hin |]].
  exact (generate_signals_range _ _ _ _ H Hin).
Defined.

Lemma mean_reversion_level_triggered_witness :
  30 <= 70 /\
  generate_signals (MeanReversion 30 70)
    (Frame [("rsi_14"%string, [Some 25; Some 28; None; Some 80])]) = Ok [1; 1; 0; -1]%Z /\
  (1 < length [1; 1; 0; -1]%Z)%nat /\
  let r := nth 1 (column_or_empty (Frame [("rsi_14"%string, [Some 25; Some 28; None; Some 80])])
                    "rsi_14") None in
  nth 1 [1; 1; 0; -1]%Z 0%Z = (if clt r (Some 30) then 1%Z
                              else if cgt r (Some 70) then (-1)%Z else 0%Z).
Proof.
  assert (Hle : 30 <= 70) by lra.
  assert (H : generate_signals (MeanReversion 30 70)
                (Frame [("rsi_14"%string, [Some 25; Some 28; None; Some 80])])
              = Ok [1; 1; 0; -1]%Z) by reflexivity.
  assert (Hi : (1 < length [1; 1; 0; -1]%Z)%nat) by (simpl; lia).
  split; [exact Hle | split; [exact H | split; [exact Hi |]]].
  exact (mean_reversion_level_triggered _ _ _ _ 1 Hle H Hi).
Defined.

Lemma total_trades_counts_first_bar_witness :
  [1; 0]%Z <> [] /\ [None; Some (1 # 10)] <> @nil cell /\
  let sr := strategy_returns [1; 0]%Z [None; Some (1 # 10)] in
  total_trades_of sr = S (total_trades_of (tl sr)) /\
  winning_trades sr = winning_trades (tl sr).
Proof.
  assert (H1 : [1; 0]%Z <> []) by discriminate.
  assert (H2 : [None; Some (1 # 10)] <> @nil cell) by discriminate.
  split; [exact H1 | split; [exact H2 |]].
  exact (total_trades_counts_first_bar _ _ H1 H2).
Defined.


Lemma backtest_empty_index_error_witness :
  generate_signals (MeanReversion 30 70)
    (Frame [("rsi_14"%string, []); ("returns"%string, [])]) = Ok [] /\
  get_col (Frame [("rsi_14"%string, []); ("returns"%string, [])]) "returns" = Ok [] /\
  backtest_prepared (MeanReversion 30 70)
    (Frame [("rsi_14"%string, []); ("returns"%string, [])]) 10000 = Err IndexError.
Proof.
  assert (H1 : generate_signals (MeanReversion 30 70)
                 (Frame [("rsi_14"%string, []); ("returns"%string, [])]) = Ok [])
    by reflexivity.
  assert (H2 : get_col (Frame [("rsi_14"%string, []); ("returns"%string, [])]) "returns" = Ok [])
    by reflexivity.
  split; [exact H1 | split; [exact H2 |]].
  exact (backtest_empty_index_error _ _ 10000 _ H1 H2).
Defined.

Lemma sharpe_win_rate_zero_when_flat_witness :
  (forall v, In (Some v) [None; Some 0; Some 0] -> v == 0) /\
  sharpe_of [None; Some 0; Some 0] = SharpeZero /\ win_rate_of [None; Some 0; Some 0] == 0.
Proof.
  assert (H : forall v, In (Some v) [None; Some 0; Some 0] -> v == 0).
  { intros v [Hv | [Hv | [Hv | []]]]; try discriminate; injection Hv as <-; reflexivity. }
  split; [exact H | exact (sharpe_win_rate_zero_when_flat _ H)].
Defined.

Lemma strategy_returns_no_lookahead_witness :
  length [1; 0; 0]%Z = length [1; -1; 1]%Z /\ firstn 1 [1; 0; 0]%Z = firstn 1 [1; -1; 1]%Z /\
  firstn 2 (strategy_returns (calculate_positions [1; 0; 0]%Z) [None; Some (1 # 10); Some (2 # 10)]) =
  firstn 2 (strategy_returns (calculate_positions [1; -1; 1]%Z) [None; Some (1 # 10); Some (2 # 10)]).
Proof.
  assert (H1 : length [1; 0; 0]%Z = length [1; -1; 1]%Z) by reflexivity.
  assert (H2 : firstn 1 [1; 0; 0]%Z = firstn 1 [1; -1; 1]%Z) by reflexivity.
  split; [exact H1 | split; [exact H2 |]].
  exact (strategy_returns_no_lookahead 1 _ _ _ H1 H2).
Defined.




Lemma run_comparison_sorted_rows_witness :
  collect_rows [("Mean Reversion"%string, Ok (MkMetrics 0 (1 # 2) 0 0 0));
                ("Momentum"%string, Err (KeyError "rsi_14"));
                ("MACD"%string, Ok (MkMetrics 0 (6 # 5) 0 0 0))] <> [] /\
  exists tbl, run_comparison [("Mean Reversion"%string, Ok (MkMetrics 0 (1 # 2) 0 0 0));
                              ("Momentum"%string, Err (KeyError "rsi_14"));
                              ("MACD"%string, Ok (MkMetrics 0 (6 # 5) 0 0 0))] = Ok tbl /\
    tcolumns tbl = comparison_columns /\
    Permutation (trows tbl)
      (collect_rows [("Mean Reversion"%string, Ok (MkMetrics 0 (1 # 2) 0 0 0));
                     ("Momentum"%string, Err (KeyError "rsi_14"));
                     ("MACD"%string, Ok (MkMetrics 0 (6 # 5) 0 0 0))]) /\
    Sorted (fun a b => sharpe_ratio (row_metrics b) <= sharpe_ratio (row_metrics a))
           (trows tbl).
Proof.
  assert (H : collect_rows [("Mean Reversion"%string, Ok (MkMetrics 0 (1 # 2) 0 0 0));
                            ("Momentum"%string, Err (KeyError "rsi_14"));
                            ("MACD"%string, Ok (MkMetrics 0 (6 # 5) 0 0 0))] <> [])
    by discriminate.
  split; [exact H | exact (run_comparison_sorted_rows _ H)].
Defined.

Lemma split_train_test_partition_witness :
  0 <= 7 # 10 /\ 0 <= 15 # 100 /\
  let '(train, validation, test) :=
    split_train_test [1; 2; 3; 4; 5; 6; 7; 8; 9; 10]%nat (7 # 10) (15 # 100) in
  train ++ validation ++ test = [1; 2; 3; 4; 5; 6; 7; 8; 9; 10]%nat /\
  length train = Nat.min (Z.to_nat (Qfloor (inject_Z (Z.of_nat 10) * (7 # 10)))) 10.
Proof.
  assert (H1 : 0 <= 7 # 10) by lra. assert (H2 : 0 <= 15 # 100) by lra.
  split; [exact H1 | split; [exact H2 |]].
  exact (split_train_test_partition [1; 2; 3; 4; 5; 6; 7; 8; 9; 10]%nat _ _ H1 H2).
Defined.

Lemma synthetic_regimes_blocks_witness :
  length ["bull"; "bear"; "sideways"; "bull"]%string = 4%nat /\
  exists regimes, synthetic_regimes 10 ["bull"; "bear"; "sideways"; "bull"]%string = Ok regimes /\
    length regimes = 10%nat /\
    forall i, (i < 10)%nat ->
      nth i regimes EmptyString
      = nth (Nat.min (i / regime_length 10) 3) ["bull"; "bear"; "sideways"; "bull"]%string
            EmptyString.
Proof.
  assert (H : length ["bull"; "bear"; "sideways"; "bull"]%string = 4%nat) by reflexivity.
  split; [exact H | exact (synthetic_regimes_blocks 10 _ H)].
Defined.

Lemma symbol_step_orders_witness :
  0 <= 10000 /\
  symbol_step 10000 (MkSymbolInput "AAPL" (Some ([0; 1]%Z, [Some (99 : Q); Some (100 : Q)])) None)
  = Some [MkOrder "AAPL" 20 SideBuy] /\
  In (MkOrder "AAPL" 20 SideBuy) [MkOrder "AAPL" 20 SideBuy] /\
  o_symbol (MkOrder "AAPL" 20 SideBuy) = "AAPL"%string /\
  exists signal close,
    Some ([0; 1]%Z, [Some (99 : Q); Some (100 : Q)]) = Some (signal, close) /\
    last_opt signal = Some 1%Z /\ @None position = None /\
    exists price, last_opt close = Some (Some price) /\ 0 < price /\
      (0 < 20)%Z /\ inject_Z 20 * price <= 10000 * (2 # 10).
Proof.
  assert (Hc : 0 <= 10000) by lra.
  assert (H : symbol_step 10000 (MkSymbolInput "AAPL" (Some ([0; 1]%Z, [Some (99 : Q); Some (100 : Q)])) None)
              = Some [MkOrder "AAPL" 20 SideBuy]) by reflexivity.
  assert (Hin : In (MkOrder "AAPL" 20 SideBuy) [MkOrder "AAPL" 20 SideBuy]) by (left; reflexivity).
  split; [exact Hc | split; [exact H | split; [exact Hin |]]].
  exact (symbol_step_orders _ _ _ _ Hc H Hin).
Defined.

Lemma trading_cycle_isolation_witness :
  symbol_step 10000 (MkSymbolInput "MSFT" None None) = None /\
  trading_cycle 10000 ([] ++ MkSymbolInput "MSFT" None None
                          :: [MkSymbolInput "AAPL" (Some ([0; 1]%Z, [Some (99 : Q); Some (100 : Q)])) None])
  = trading_cycle 10000 [] ++
    trading_cycle 10000 [MkSymbolInput "AAPL" (Some ([0; 1]%Z, [Some (99 : Q); Some (100 : Q)])) None] /\
  (length (trading_cycle 10000 ([] ++ MkSymbolInput "MSFT" None None
           :: [MkSymbolInput "AAPL" (Some ([0; 1]%Z, [Some (99 : Q); Some (100 : Q)])) None]))
   <= length ([] ++ [MkSymbolInput "AAPL" (Some ([0; 1]%Z, [Some (99 : Q); Some (100 : Q)])) None]))%nat.
Proof.
  assert (H : symbol_step 10000 (MkSymbolInput "MSFT" None None) = None) by reflexivity.
  split; [exact H | exact (trading_cycle_isolation 10000 [] _ _ H)].
Defined.
